(** * PPT_GENERATOR: the text-to-slides pipeline of App.py and App1.py

    A shallow embedding of the two Streamlit scripts of the repository:

    - [VariantA] is [App.py]: the blob returned by the generative service is
      cut into chunks of bounded length ([split_content]) and every topic
      gets one content slide per chunk;
    - [VariantB] is [App1.py]: the blob is cut at its "Slide <n>:" markers
      ([split_into_slides]), the fragments are cleaned
      ([remove_double_asteris]), parsed ([process_slide_title]) and turned
      into slides ([generate_ppt]).

    Python strings are modelled as lists of characters, a character being a
    code point below 256 ([ascii]); [isspace] and [isdigit] are Python's
    predicates on that range.  A length limit is a natural number.  The
    Streamlit calls, the remote model and the file system are effects on an
    explicit [World]; a run returns, raises or goes on for ever
    ([Outcome]). *)

From Stdlib Require Import Ascii String DecimalString List Arith Lia Bool.
Import ListNotations.

(* ================================================================== *)
(** ** Python strings *)
(* ================================================================== *)

Module Py.

Definition pystr := list ascii.

(** A string literal of the source. *)
Definition str (s : string) : pystr := list_ascii_of_string s.

(** [c.isspace()] for a code point below 256: TAB..CR, FS..US, the space,
    NEL (0x85) and the no-break space (0xA0). *)
Definition isspace (c : ascii) : bool :=
  let n := nat_of_ascii c in
  ((9 <=? n) && (n <=? 13)) || ((28 <=? n) && (n <=? 32))
  || (n =? 133) || (n =? 160).

(** [\d] of the [re] module on a [str] pattern, below code point 256. *)
Definition isdigit (c : ascii) : bool :=
  let n := nat_of_ascii c in (48 <=? n) && (n <=? 57).

Definition space : ascii := " "%char.
Definition newline : ascii := "010"%char.
Definition star : ascii := "*"%char.

(** [s.lstrip(chars)], [s.rstrip(chars)] and [s.strip(chars)], the set of
    characters given as a predicate. *)
Fixpoint lstrip_by (p : ascii -> bool) (s : pystr) : pystr :=
  match s with
  | [] => []
  | c :: r => if p c then lstrip_by p r else s
  end.

Definition rstrip_by (p : ascii -> bool) (s : pystr) : pystr :=
  rev (lstrip_by p (rev s)).

Definition strip_by (p : ascii -> bool) (s : pystr) : pystr :=
  rstrip_by p (lstrip_by p s).

(** [s.strip()] *)
Definition strip (s : pystr) : pystr := strip_by isspace s.

(** The highest index of [c] in [s], [None] for Python's [-1]. *)
Fixpoint rfind_char (c : ascii) (s : pystr) : option nat :=
  match s with
  | [] => None
  | x :: r =>
      match rfind_char c r with
      | Some i => Some (S i)
      | None => if Ascii.eqb x c then Some 0 else None
      end
  end.

(** [s.rfind(c, 0, stop)]: the search is confined to [s[0:stop]]. *)
Definition rfind (c : ascii) (s : pystr) (stop : nat) : option nat :=
  rfind_char c (firstn stop s).

(** [s.startswith(p)] *)
Fixpoint startswith (p s : pystr) : bool :=
  match p, s with
  | [], _ => true
  | _ :: _, [] => false
  | a :: p', b :: s' => Ascii.eqb a b && startswith p' s'
  end.

(** [s.split("\n")]: never empty, [""] splits into [[""]]. *)
Fixpoint split_lines (s : pystr) : list pystr :=
  match s with
  | [] => [[]]
  | c :: r =>
      if Ascii.eqb c newline then [] :: split_lines r
      else match split_lines r with
           | [] => [[c]]
           | l :: ls => (c :: l) :: ls
           end
  end.

(** [s.split("\n", 1)]: [inl s] for the one-element list when [s] holds no
    newline, [inr (before, after)] around the first newline otherwise. *)
Fixpoint split_first_line (s : pystr) : pystr + pystr * pystr :=
  match s with
  | [] => inl []
  | c :: r =>
      if Ascii.eqb c newline then inr ([], r)
      else match split_first_line r with
           | inl l => inl (c :: l)
           | inr (l, rest) => inr (c :: l, rest)
           end
  end.

(** [sep.join(items)] *)
Fixpoint join (sep : pystr) (items : list pystr) : pystr :=
  match items with
  | [] => []
  | [x] => x
  | x :: rest => x ++ sep ++ join sep rest
  end.

(** [s.replace(" ", "_")] and the like: one character for another. *)
Definition replace_char (old new : ascii) (s : pystr) : pystr :=
  map (fun c => if Ascii.eqb c old then new else c) s.

(** [s.replace("**", "")]: occurrences are taken from the left and do not
    overlap. *)
Fixpoint remove_double_star (s : pystr) : pystr :=
  match s with
  | [] => []
  | c :: r =>
      match r with
      | d :: r' =>
          if Ascii.eqb c star && Ascii.eqb d star then remove_double_star r'
          else c :: remove_double_star r
      | [] => [c]
      end
  end.

(** [s[:-2]] *)
Definition drop_last2 (s : pystr) : pystr := firstn (length s - 2) s.

(** [p in s] *)
Fixpoint contains (p s : pystr) : bool :=
  startswith p s ||
  match s with
  | [] => false
  | _ :: r => contains p r
  end.

Definition all_space (s : pystr) : Prop := Forall (fun c => isspace c = true) s.

(** [s.lstrip()] *)
Definition lstrip (s : pystr) : pystr := lstrip_by isspace s.

(** The characters of [s] that are not whitespace, in order. *)
Definition visible (s : pystr) : pystr :=
  filter (fun c => negb (isspace c)) s.

(** Whitespace that does not break the line. *)
Definition blank (s : pystr) : Prop :=
  Forall (fun c => isspace c = true /\ c <> newline) s.

End Py.

Import Py.

(* ================================================================== *)
(** ** The fixed-length segmenter of App.py *)
(* ================================================================== *)

Module Segmenter.

(** [split_index] as the loop body computes it: the last space of
    [content[0:max_length]], or [max_length] when there is none. *)
Definition split_index (content : pystr) (max_length : nat) : nat :=
  match rfind space content max_length with
  | Some i => i
  | None => max_length
  end.

(** One turn of the [while] loop: the chunk appended and the new [content]. *)
Definition split_step (content : pystr) (max_length : nat) : pystr * pystr :=
  let i := split_index content max_length in
  (firstn i content, strip (skipn i content)).

(** The [while] loop of [split_content], [fuel] bounding the number of tests
    of its condition; [None] when the fuel runs out. *)
Fixpoint split_loop (fuel : nat) (chunks : list pystr) (content : pystr)
    (max_length : nat) : option (list pystr) :=
  match fuel with
  | 0 => None
  | S fuel' =>
      if max_length <? length content then
        let '(chunk, rest) := split_step content max_length in
        split_loop fuel' (chunks ++ [chunk]) rest max_length
      else Some (chunks ++ [content])
  end.

(** [split_content(content, max_length)]; [None] stands for a loop that
    never ends (see [split_loop_complete]). *)
Definition split_content (content : pystr) (max_length : nat)
  : option (list pystr) :=
  split_loop (S (length content)) [] content max_length.

Definition both_space (w : pystr * pystr) : Prop :=
  all_space (fst w) /\ all_space (snd w).

(** Putting back what [strip] removed at each cut: [ws] gives, cut by cut,
    the whitespace taken off the front and off the back of the remainder. *)
Fixpoint restore (chunks : list pystr) (ws : list (pystr * pystr)) : pystr :=
  match chunks, ws with
  | [], _ => []
  | c :: _, [] => c
  | c :: cs, (lead, trail) :: ws' => c ++ lead ++ restore cs ws' ++ trail
  end.

(** The loop as a relation: [splits max_length content chunks] when the
    loop started on [content] ends having appended [chunks]. *)
Inductive splits (max_length : nat) : pystr -> list pystr -> Prop :=
| splits_last content :
    length content <= max_length ->
    splits max_length content [content]
| splits_cut content chunk rest chunks :
    max_length < length content ->
    split_step content max_length = (chunk, rest) ->
    splits max_length rest chunks ->
    splits max_length content (chunk :: chunks).

End Segmenter.

Import Segmenter.

(* ================================================================== *)
(** ** The marker segmenter and the fragment parser of App1.py *)
(* ================================================================== *)

Module Markers.

(** The number of leading characters of [s] matched by a greedy [\d*]. *)
Fixpoint digits_len (s : pystr) : nat :=
  match s with
  | [] => 0
  | c :: r => if isdigit c then S (digits_len r) else 0
  end.

(** Matching a literal at the head of [s]: what follows it. *)
Fixpoint strip_prefix (p s : pystr) : option pystr :=
  match p, s with
  | [], _ => Some s
  | _ :: _, [] => None
  | a :: p', b :: s' => if Ascii.eqb a b then strip_prefix p' s' else None
  end.

(** [Slide \d+:] matched at the head of [s]: the length of the match.  The
    digits are followed by a colon, so only the longest run of digits can
    match. *)
Definition marker_at (s : pystr) : option nat :=
  match strip_prefix (str "Slide ") s with
  | None => None
  | Some r =>
      let d := digits_len r in
      match d, skipn d r with
      | S _, c :: _ => if Ascii.eqb c ":" then Some (6 + d + 1) else None
      | _, _ => None
      end
  end.

(** [$] without [re.MULTILINE]: the end of the text, or just before a
    newline that ends the text. *)
Definition at_dollar (s : pystr) : bool :=
  match s with
  | [] => true
  | [c] => Ascii.eqb c newline
  | _ => false
  end.

(** The lookahead [(?=Slide \d+:|$)]. *)
Definition lookahead (s : pystr) : bool :=
  match marker_at s with
  | Some _ => true
  | None => at_dollar s
  end.

(** The lazy [.*?] under [re.DOTALL] followed by the lookahead: the shortest
    run of characters after which the lookahead holds, and what is left. *)
Fixpoint lazy_any (s : pystr) : pystr * pystr :=
  if lookahead s then ([], s)
  else match s with
       | [] => ([], [])
       | c :: r => let '(a, rest) := lazy_any r in (c :: a, rest)
       end.

(** [slide_pattern.findall(content)]: the leftmost match is taken, the
    search goes on where it ended (a match is never empty).  [fuel] bounds
    the number of positions tried; the length of the text is enough
    ([findall_loop_fuel]). *)
Fixpoint findall_loop (fuel : nat) (s : pystr) : list pystr :=
  match fuel with
  | 0 => []
  | S fuel' =>
      match s with
      | [] => []
      | _ :: r =>
          match marker_at s with
          | Some n =>
              let '(body, rest) := lazy_any (skipn n s) in
              (firstn n s ++ body) :: findall_loop fuel' rest
          | None => findall_loop fuel' r
          end
      end
  end.

Definition findall (content : pystr) : list pystr :=
  findall_loop (length content) content.

(** The two steps of the loop body of [split_into_slides]. *)
Definition trim_match (m : pystr) : pystr := drop_last2 m.
Definition wrap_bold (m : pystr) : pystr := str "**" ++ m.

Definition split_into_slides (content : pystr) : list pystr :=
  map (fun m => wrap_bold (trim_match m)) (findall content).

Definition remove_double_asteris (input_list : list pystr) : list pystr :=
  map remove_double_star input_list.

(** The longest prefix without a newline: a greedy [.+] or [.*] without
    [re.DOTALL]. *)
Fixpoint upto_newline (s : pystr) : pystr :=
  match s with
  | [] => []
  | c :: r => if Ascii.eqb c newline then [] else c :: upto_newline r
  end.

(** [re.match(r"Slide (\d+): (.+)", slide_header)]: the two groups. *)
Definition header_match (slide_header : pystr) : option (pystr * pystr) :=
  match strip_prefix (str "Slide ") slide_header with
  | None => None
  | Some r =>
      let d := digits_len r in
      match d with
      | 0 => None
      | S _ =>
          match strip_prefix (str ": ") (skipn d r) with
          | None => None
          | Some rest =>
              match upto_newline rest with
              | [] => None
              | g2 => Some (firstn d r, g2)
              end
          end
      end
  end.

Definition star_or_space (c : ascii) : bool :=
  Ascii.eqb c star || Ascii.eqb c space.

Definition nonempty (s : pystr) : bool :=
  match s with [] => false | _ => true end.

(** [process_slide_title(slide)]: [None] is Python's [None]. *)
Definition process_slide_title (slide : pystr)
  : option (pystr * pystr * pystr) :=
  match split_first_line slide with
  | inl _ => None
  | inr (part0, part1) =>
      let slide_header := strip part0 in
      match header_match slide_header with
      | None => None
      | Some (slide_number, g2) =>
          let title := strip g2 in
          let points := strip part1 in
          let points_list :=
            map (fun point => strip (strip_by star_or_space point))
                (filter (fun point => nonempty (strip point))
                        (split_lines points)) in
          let points_string := join (str ", ") points_list in
          Some (slide_number, title, points_string)
      end
  end.

(** The string [process_slide_title] builds from the text after the first
    newline: the lines that are not blank, cleaned and joined. *)
Definition points_string_of (part1 : pystr) : pystr :=
  join (str ", ")
    (map (fun point => strip (strip_by star_or_space point))
         (filter (fun point => nonempty (strip point))
                 (split_lines (strip part1)))).

(** The positions of [s] at which a marker starts, in increasing order. *)
Fixpoint marker_positions_from (off : nat) (s : pystr) : list nat :=
  match s with
  | [] => []
  | _ :: r =>
      match marker_at s with
      | Some _ => off :: marker_positions_from (S off) r
      | None => marker_positions_from (S off) r
      end
  end.

Definition marker_positions (s : pystr) : list nat :=
  marker_positions_from 0 s.

(** [s[p:q]] *)
Definition substring (p q : nat) (s : pystr) : pystr :=
  firstn (q - p) (skipn p s).

(** Where [$] holds in [s]: before the newline that ends it, else at its
    end. *)
Definition dollar_end (s : pystr) : nat :=
  match rev s with
  | c :: _ => if Ascii.eqb c newline then length s - 1 else length s
  | [] => 0
  end.

(** The text between each position of [ps] and the next one, the last one
    running up to [stop]. *)
Fixpoint spans_between (s : pystr) (ps : list nat) (stop : nat)
  : list pystr :=
  match ps with
  | [] => []
  | p :: ps' =>
      let q := match ps' with [] => stop | p' :: _ => p' end in
      substring p q s :: spans_between s ps' stop
  end.

End Markers.

Import Markers.

(* ================================================================== *)
(** ** Decks, the screen and the outside world *)
(* ================================================================== *)

Module World.

(** [prs.slide_layouts[0]] and [prs.slide_layouts[1]] of the default
    template. *)
Inductive Layout := TitleSlide | TitleAndContent.

(** A placeholder as the scripts fill it: its text, the font size given to
    its runs and the level given to its paragraphs, when they are set. *)
Record Placeholder := mkPlaceholder {
  text : pystr;
  font_pt : option nat;
  level : option nat
}.

(** A slide: its layout, [slide.shapes.title] and [slide.placeholders[1]]
    (the subtitle of a title slide, the body of a content slide). *)
Record Slide := mkSlide {
  layout : Layout;
  title_placeholder : Placeholder;
  content_placeholder : Placeholder
}.

(** [placeholder.text = t] on the placeholder of a new slide. *)
Definition with_text (t : pystr) : Placeholder := mkPlaceholder t None None.

Definition title_text (s : Slide) : pystr := text (title_placeholder s).
Definition body_text (s : Slide) : pystr := text (content_placeholder s).

Definition Deck := list Slide.

Definition is_title_slide (s : Slide) : bool :=
  match layout s with TitleSlide => true | TitleAndContent => false end.

Definition is_content_slide (s : Slide) : bool :=
  match layout s with TitleSlide => false | TitleAndContent => true end.

(** A deck that opens with a title slide, all the other slides being
    content slides. *)
Definition one_title_then_content (d : Deck) : Prop :=
  exists t rest,
    d = t :: rest
    /\ is_title_slide t = true
    /\ Forall (fun s => is_content_slide s = true) rest.

(** What Streamlit is asked to show. *)
Inductive UiEvent :=
| st_error (msg : pystr)
| st_info (msg : pystr)
| st_success (msg : pystr)
| st_write (msg : pystr)
| st_subheader (msg : pystr)
| st_text_area (label value : pystr)
| st_download_button (label : pystr) (data : Deck) (file_name mime : pystr).

Definition is_st_error (e : UiEvent) : bool :=
  match e with st_error _ => true | _ => false end.

Definition is_download_button (e : UiEvent) : bool :=
  match e with st_download_button _ _ _ _ => true | _ => false end.

(** What the scripts read from outside: the credential, the remote model
    (the answer to the [n]-th request: its text, or the message of the
    exception it raises) and Python's [str] of a list of strings, which the
    f-string of App.py applies to [topics]. *)
Record Runtime := mkRuntime {
  GEMINI_API_KEY : option pystr;
  model_generate : nat -> pystr -> pystr + pystr;
  str_of_list : list pystr -> pystr
}.

(** [not GEMINI_API_KEY] *)
Definition key_missing (rt : Runtime) : bool :=
  match GEMINI_API_KEY rt with
  | None => true
  | Some [] => true
  | Some (_ :: _) => false
  end.

(** What the scripts change: the prompts sent to the model, the screen, and
    the presentation files written ([prs.save(file_name)]), the latest
    first. *)
Record World := mkWorld {
  requests : list pystr;
  screen : list UiEvent;
  files : list (pystr * Deck)
}.

Definition empty_world : World := mkWorld [] [] [].

Inductive Exn := TypeError | IndexError | FileNotFoundError.

Inductive Outcome (A : Type) :=
| Ok (a : A)
| Raised (e : Exn)
| Diverged.

Arguments Ok {A} a.
Arguments Raised {A} e.
Arguments Diverged {A}.

(** Computations on the world that may raise or run forever. *)
Definition M (A : Type) := World -> Outcome A * World.

Definition ret {A} (a : A) : M A := fun w => (Ok a, w).

Definition bind {A B} (m : M A) (k : A -> M B) : M B :=
  fun w =>
    match m w with
    | (Ok a, w') => k a w'
    | (Raised e, w') => (Raised e, w')
    | (Diverged, w') => (Diverged, w')
    end.

Definition raise {A} (e : Exn) : M A := fun w => (Raised e, w).
Definition diverge {A} : M A := fun w => (Diverged, w).

Definition emit (e : UiEvent) : M unit :=
  fun w => (Ok tt, mkWorld (requests w) (screen w ++ [e]) (files w)).

(** One request to the model: the prompt is recorded, the answer is the
    runtime's for that request. *)
Definition ask_model (rt : Runtime) (prompt : pystr) : M (pystr + pystr) :=
  fun w =>
    (Ok (model_generate rt (length (requests w)) prompt),
     mkWorld (requests w ++ [prompt]) (screen w) (files w)).

(** [prs.save(file_name)]: the presentation library and the file system
    are taken to accept every text and every file name. *)
Definition save_file (file_name : pystr) (d : Deck) : M unit :=
  fun w => (Ok tt, mkWorld (requests w) (screen w) ((file_name, d) :: files w)).

Fixpoint lookup_file (file_name : pystr) (fs : list (pystr * Deck))
  : option Deck :=
  match fs with
  | [] => None
  | (n, d) :: rest =>
      if list_eq_dec ascii_dec n file_name then Some d
      else lookup_file file_name rest
  end.

(** [open(file_name, "rb")] *)
Definition open_file (file_name : pystr) : M Deck :=
  fun w =>
    match lookup_file file_name (files w) with
    | Some d => (Ok d, w)
    | None => (Raised FileNotFoundError, w)
    end.

(** A [for] loop over a list, threading a value. *)
Fixpoint for_each {A S} (xs : list A) (body : A -> S -> M S) (s : S) : M S :=
  match xs with
  | [] => ret s
  | x :: rest => bind (body x s) (for_each rest body)
  end.

Definition pptx_mime : pystr :=
  str "application/vnd.openxmlformats-officedocument.presentationml.presentation".

(** [[topic.strip() for topic in topics_input.split("\n") if topic.strip()]] *)
Definition parse_topics (topics_input : pystr) : list pystr :=
  map strip (filter (fun topic => nonempty (strip topic))
                    (split_lines topics_input)).

End World.

Import World.

Notation "x <- m ;; k" := (bind m (fun x => k))
  (at level 61, m at next level, right associativity).
Notation "m ;;; k" := (bind m (fun _ => k))
  (at level 61, right associativity).

(* ================================================================== *)
(** ** App.py *)
(* ================================================================== *)

Module VariantA.

Definition generate_content (rt : Runtime) (prompt : pystr) : M pystr :=
  if key_missing rt then
    emit (st_error (str "Gemini API key not found. Please set it in the .env file.")) ;;;
    ret (str "Error: Missing API key.")
  else
    r <- ask_model rt prompt ;;
    match r with
    | inl text => ret text
    | inr e =>
        emit (st_error (str "Error: " ++ e)) ;;;
        ret (str "Error generating content.")
    end.

(** [set_font_size(placeholder, size)]: every run of every paragraph. *)
Definition set_font_size (placeholder : Placeholder) (size : nat)
  : Placeholder :=
  mkPlaceholder (text placeholder) (Some size) (level placeholder).

(** The loop that removes the bullets: every paragraph gets the level [l],
    no bullet and the left alignment. *)
Definition remove_bullets (placeholder : Placeholder) (l : nat) : Placeholder :=
  mkPlaceholder (text placeholder) (font_pt placeholder) (Some l).

(** The title slide: the title, the fixed subtitle, sizes 32 and 20. *)
Definition title_slide (title : pystr) : Slide :=
  mkSlide TitleSlide
    (set_font_size (with_text title) 32)
    (set_font_size (with_text (str "Generated by AI")) 20).

(** The slide added for [content_chunks[0]]. *)
Definition first_slide (topic chunk : pystr) : Slide :=
  mkSlide TitleAndContent
    (set_font_size (with_text topic) 24)
    (set_font_size (remove_bullets (with_text chunk) 0) 18).

(** The slide added for each chunk of [content_chunks[1:]]. *)
Definition next_slide (topic chunk : pystr) : Slide :=
  mkSlide TitleAndContent
    (set_font_size (with_text topic) 24)
    (set_font_size (remove_bullets (with_text chunk) 3) 18).

(** The slides one topic adds for the chunks [chunk0 :: others]. *)
Definition topic_slides (topic chunk0 : pystr) (others : list pystr)
  : list Slide :=
  first_slide topic chunk0 :: map (next_slide topic) others.

(** The body of the [for topic in topics] loop, [prs] being the slides
    added so far. *)
Definition topic_body (content topic : pystr) (prs : Deck) : M Deck :=
  emit (st_write (str "### " ++ topic)) ;;;
  emit (st_write content) ;;;
  match split_content content 900 with
  | None => diverge
  | Some content_chunks =>
      match content_chunks with
      | [] => raise IndexError
      | chunk0 :: others =>
          ret (prs ++ topic_slides topic chunk0 others)
      end
  end.

(** [f"Generate ppt for the topic:{topics} under title {title}"] *)
Definition prompt (rt : Runtime) (title : pystr) (topics : list pystr)
  : pystr :=
  str "Generate ppt for the topic:" ++ str_of_list rt topics
    ++ str " under title " ++ title.

(** [f"{title.replace(' ', '_')}.pptx"] *)
Definition file_name_of (title : pystr) : pystr :=
  replace_char space "_" title ++ str ".pptx".

Definition create_presentation (rt : Runtime) (title : pystr)
    (topics : list pystr) : M pystr :=
  let prs := [title_slide title] in
  content <- generate_content rt (prompt rt title topics) ;;
  prs <- for_each topics (topic_body content) prs ;;
  let file_name := file_name_of title in
  save_file file_name prs ;;;
  ret file_name.

(** What the loop over the topics writes on the screen. *)
Definition topic_lines (content : pystr) (topics : list pystr)
  : list UiEvent :=
  flat_map (fun topic => [st_write (str "### " ++ topic); st_write content])
           topics.

(** The [if submit:] block. *)
Definition on_submit (rt : Runtime) (title topics_input : pystr) : M unit :=
  let topics := parse_topics topics_input in
  match topics with
  | [] => emit (st_error (str "Please enter at least one topic."))
  | _ :: _ =>
      emit (st_info (str "Generating your presentation. Please wait...")) ;;;
      file_name <- create_presentation rt title topics ;;
      emit (st_success (str "Presentation '" ++ file_name
                          ++ str "' created successfully!")) ;;;
      file <- open_file file_name ;;
      emit (st_download_button (str "Download Presentation") file
              file_name pptx_mime)
  end.

End VariantA.

(* ================================================================== *)
(** ** App1.py *)
(* ================================================================== *)

Module VariantB.

(** [f"Generate ppt for the topic: {', '.join(topics)} under title {title}"] *)
Definition prompt (title : pystr) (topics : list pystr) : pystr :=
  str "Generate ppt for the topic: " ++ join (str ", ") topics
    ++ str " under title " ++ title.

(** [f"{title.replace(' ', '_')}_presentation.pptx"] *)
Definition download_name (title : pystr) : pystr :=
  replace_char space "_" title ++ str "_presentation.pptx".

Definition generate_content (rt : Runtime) (title : pystr)
    (topics : list pystr) : M pystr :=
  if key_missing rt then
    emit (st_error (str "Gemini API key not found. Please set it in the .env file.")) ;;;
    ret (str "Error: Missing API key.")
  else
    r <- ask_model rt (prompt title topics) ;;
    match r with
    | inl text => ret text
    | inr e =>
        emit (st_error (str "Error: " ++ e)) ;;;
        ret (str "Error generating content.")
    end.

(** What [create_presentation] returns: the error string, or the list of
    cleaned fragments. *)
Inductive Created :=
| ErrorString (content : pystr)
| SlideTexts (filtered_slides : list pystr).

Definition create_presentation (rt : Runtime) (title : pystr)
    (topics : list pystr) : M Created :=
  content <- generate_content rt title topics ;;
  if startswith (str "Error") content then ret (ErrorString content)
  else
    let slides := split_into_slides content in
    let filtered_slides := remove_double_asteris slides in
    emit (st_text_area (str "raw content") content) ;;;
    ret (SlideTexts filtered_slides).

Definition content_slide (no title content : pystr) : Slide :=
  mkSlide TitleAndContent (with_text (no ++ str "." ++ title))
    (with_text content).

(** The loop of [generate_ppt]: unpacking the [None] of
    [process_slide_title] raises [TypeError]. *)
Fixpoint add_slides (slides : list pystr) (prs : Deck) : Exn + Deck :=
  match slides with
  | [] => inr prs
  | slide_content :: rest =>
      match process_slide_title slide_content with
      | None => inl TypeError
      | Some (no, title, content) =>
          add_slides rest (prs ++ [content_slide no title content])
      end
  end.

(** [generate_ppt(slides)]: the stream it returns holds the deck. *)
Definition generate_ppt (slides : list pystr) : M Deck :=
  match add_slides slides [] with
  | inl e => raise e
  | inr prs => ret prs
  end.

Definition decimal (n : nat) : pystr :=
  str (NilEmpty.string_of_uint (Nat.to_uint n)).

(** The loop that shows every fragment, numbered from [i]. *)
Fixpoint show_slides (i : nat) (slides : list pystr) : M unit :=
  match slides with
  | [] => ret tt
  | slide :: rest =>
      emit (st_subheader (str "Slide " ++ decimal i)) ;;;
      emit (st_text_area (str "Slide " ++ decimal i ++ str " Content") slide) ;;;
      show_slides (S i) rest
  end.

(** What [show_slides] puts on the screen. *)
Fixpoint slide_events (i : nat) (slides : list pystr) : list UiEvent :=
  match slides with
  | [] => []
  | slide :: rest =>
      st_subheader (str "Slide " ++ decimal i)
        :: st_text_area (str "Slide " ++ decimal i ++ str " Content") slide
        :: slide_events (S i) rest
  end.

(** The slide [generate_ppt] adds for a parsed fragment. *)
Definition slide_of_parsed (parsed : pystr * pystr * pystr) : Slide :=
  let '(no, title, content) := parsed in content_slide no title content.

(** What iterating over the returned value yields: the fragments of a list,
    the characters of a string. *)
Definition iterate (c : Created) : list pystr :=
  match c with
  | SlideTexts l => l
  | ErrorString s => map (fun ch => [ch]) s
  end.

(** The [else] branch of the error test: the deck is built and offered. *)
Definition deliver (title : pystr) (slides : list pystr) : M unit :=
  emit (st_success (str "Presentation content generated successfully!")) ;;;
  ppt_stream <- generate_ppt slides ;;
  show_slides 1 slides ;;;
  emit (st_download_button (str "Download PowerPoint Presentation")
          ppt_stream (download_name title) pptx_mime).

(** The [if submit:] block. *)
Definition on_submit (rt : Runtime) (title topics_input : pystr) : M unit :=
  let topics := parse_topics topics_input in
  match topics with
  | [] => emit (st_error (str "Please enter at least one topic."))
  | _ :: _ =>
      emit (st_info (str "Generating your presentation. Please wait...")) ;;;
      slides <- create_presentation rt title topics ;;
      match slides with
      | ErrorString s =>
          if startswith (str "Error") s then emit (st_error s)
          else deliver title (iterate slides)
      | SlideTexts _ => deliver title (iterate slides)
      end
  end.

End VariantB.

(* ================================================================== *)
(** ** Sample runs *)
(* ================================================================== *)

Module Samples.

(** A text given line by line. *)
Definition lines (ls : list string) : pystr := join [newline] (map str ls).

(** Python's [str] of a list of strings that hold no quote, no backslash
    and no control character. *)
Definition plain_str_of_list (l : list pystr) : pystr :=
  str "[" ++ join (str ", ") (map (fun t => "'"%char :: t ++ ["'"%char]) l)
    ++ str "]".

(** No credential in the environment. *)
Definition rt_no_key : Runtime :=
  mkRuntime None (fun _ _ => inr (str "API key not valid")) plain_str_of_list.

(** A credential, and a model that answers [text]. *)
Definition rt_answer (text : pystr) : Runtime :=
  mkRuntime (Some (str "key")) (fun _ _ => inl text) plain_str_of_list.

(** A credential, and a model whose call raises with the message [e]. *)
Definition rt_raises (e : pystr) : Runtime :=
  mkRuntime (Some (str "key")) (fun _ _ => inr e) plain_str_of_list.

(** An answer in the shape the marker segmenter expects: bold headings. *)
Definition bold_blob : pystr :=
  lines ["**Slide 1: Intro**"; "* a"; "* b"; "";
         "**Slide 2: More**"; "* c"; "* d"; ""; "The end"]%string.

(** An answer whose second heading has no space after the colon. *)
Definition broken_blob : pystr :=
  lines ["Slide 1: Intro"; "* a"; ""; "Slide 2:More"; "* b"; ""]%string.

End Samples.

Import Samples.

(* ================================================================== *)
(** ** Strings: basic facts *)
(* ================================================================== *)

Section StripFacts.

Variable p : ascii -> bool.

Lemma lstrip_by_split (s : pystr) :
  exists lead, s = lead ++ lstrip_by p s /\ Forall (fun c => p c = true) lead.
Proof.
  induction s as [|c r IH]; simpl.
  - exists []; split; [reflexivity | constructor].
  - destruct (p c) eqn:Hc.
    + destruct IH as [lead [E F]].
      exists (c :: lead); split.
      * simpl; f_equal; exact E.
      * constructor; assumption.
    + exists []; split; [reflexivity | constructor].
Qed.

Lemma rstrip_by_split (s : pystr) :
  exists trail, s = rstrip_by p s ++ trail /\ Forall (fun c => p c = true) trail.
Proof.
  unfold rstrip_by.
  destruct (lstrip_by_split (rev s)) as [lead [E F]].
  exists (rev lead); split.
  - rewrite <- rev_app_distr, <- E, rev_involutive; reflexivity.
  - apply Forall_rev; assumption.
Qed.

Lemma strip_by_split (s : pystr) :
  exists lead trail,
    s = lead ++ strip_by p s ++ trail
    /\ Forall (fun c => p c = true) lead
    /\ Forall (fun c => p c = true) trail.
Proof.
  unfold strip_by.
  destruct (lstrip_by_split s) as [lead [E F]].
  destruct (rstrip_by_split (lstrip_by p s)) as [trail [E' F']].
  exists lead, trail; repeat split; try assumption.
  rewrite <- E'; exact E.
Qed.

Lemma lstrip_by_length (s : pystr) : length (lstrip_by p s) <= length s.
Proof.
  destruct (lstrip_by_split s) as [lead [E _]].
  rewrite E at 2; rewrite length_app; lia.
Qed.

Lemma rstrip_by_length (s : pystr) : length (rstrip_by p s) <= length s.
Proof.
  destruct (rstrip_by_split s) as [trail [E _]].
  rewrite E at 2; rewrite length_app; lia.
Qed.

Lemma strip_by_length (s : pystr) : length (strip_by p s) <= length s.
Proof.
  unfold strip_by.
  pose proof (rstrip_by_length (lstrip_by p s)).
  pose proof (lstrip_by_length s).
  lia.
Qed.

Lemma strip_by_head (c : ascii) (r : pystr) :
  p c = true -> length (strip_by p (c :: r)) <= length r.
Proof.
  intros Hc; unfold strip_by; simpl; rewrite Hc.
  apply strip_by_length.
Qed.

Lemma lstrip_by_idem (s : pystr) : lstrip_by p (lstrip_by p s) = lstrip_by p s.
Proof.
  induction s as [|c r IH]; simpl; [reflexivity|].
  destruct (p c) eqn:Hc; [exact IH | simpl; rewrite Hc; reflexivity].
Qed.

Lemma lstrip_by_app_keep (s : pystr) (c : ascii) :
  p c = false -> exists u, lstrip_by p (s ++ [c]) = u ++ [c].
Proof.
  intros Hc; induction s as [|x r IH]; simpl.
  - rewrite Hc; exists []; reflexivity.
  - destruct (p x); [exact IH | exists (x :: r); reflexivity].
Qed.

Lemma strip_by_idem (s : pystr) : strip_by p (strip_by p s) = strip_by p s.
Proof.
  unfold strip_by.
  assert (H : forall t, lstrip_by p t = t ->
                   lstrip_by p (rstrip_by p t) = rstrip_by p t).
  { intros t Ht; destruct t as [|c t']; [reflexivity|].
    simpl in Ht; destruct (p c) eqn:Hc.
    - exfalso.
      pose proof (lstrip_by_length t') as L.
      rewrite Ht in L; simpl in L; lia.
    - unfold rstrip_by; simpl rev.
      destruct (lstrip_by_app_keep (rev t') c Hc) as [u Hu].
      rewrite Hu, rev_app_distr; simpl; rewrite Hc; reflexivity. }
  rewrite (H _ (lstrip_by_idem s)).
  unfold rstrip_by; rewrite rev_involutive, lstrip_by_idem; reflexivity.
Qed.

End StripFacts.

Lemma isspace_space : isspace space = true.
Proof. reflexivity. Qed.

Lemma strip_split (s : pystr) :
  exists lead trail,
    s = lead ++ strip s ++ trail /\ all_space lead /\ all_space trail.
Proof. apply strip_by_split. Qed.

Lemma strip_length (s : pystr) : length (strip s) <= length s.
Proof. apply strip_by_length. Qed.

Lemma strip_idem (s : pystr) : strip (strip s) = strip s.
Proof. apply strip_by_idem. Qed.

Lemma rfind_char_spec (c : ascii) (s : pystr) (i : nat) :
  rfind_char c s = Some i -> nth_error s i = Some c.
Proof.
  revert i; induction s as [|x r IH]; simpl; intros i H; [discriminate|].
  destruct (rfind_char c r) as [j|].
  - injection H as <-; simpl; apply IH; reflexivity.
  - destruct (Ascii.eqb x c) eqn:E; [|discriminate].
    injection H as <-; simpl; apply Ascii.eqb_eq in E; subst; reflexivity.
Qed.

Lemma rfind_char_lt (c : ascii) (s : pystr) (i : nat) :
  rfind_char c s = Some i -> i < length s.
Proof.
  intros H; apply rfind_char_spec in H.
  apply nth_error_Some; congruence.
Qed.

(* ================================================================== *)
(** ** The fixed-length segmenter: sample cuts *)
(* ================================================================== *)

Example split_content_words :
  split_content (str "aaa bbb ccc") 5 = Some [str "aaa"; str "bbb"; str "ccc"].
Proof. reflexivity. Qed.

Example split_content_hard_cut :
  split_content (str "abcdefgh") 3 = Some [str "abc"; str "def"; str "gh"].
Proof. reflexivity. Qed.

Example split_content_leading_space :
  split_content (str " abcdefgh") 3 = Some [str ""; str "abc"; str "def"; str "gh"].
Proof. reflexivity. Qed.

Example split_content_empty : split_content (str "") 900 = Some [str ""].
Proof. reflexivity. Qed.

(** The two edge cases of a cut: the only space of the window at index 0,
    and no space in the window. *)
Example split_step_space_at_0 :
  split_step (str " abcdefgh") 3 = (str "", str "abcdefgh").
Proof. reflexivity. Qed.

Example split_step_no_space :
  split_step (str "abcdefgh") 3 = (str "abc", str "defgh").
Proof. reflexivity. Qed.

Example split_content_trailing :
  split_content (str "aaa bbb   ") 5 = Some [str "aaa"; str "bbb"].
Proof. reflexivity. Qed.

(* ================================================================== *)
(** ** The fixed-length segmenter: one turn of the loop *)
(* ================================================================== *)

Lemma split_index_le (content : pystr) (max_length : nat) :
  split_index content max_length <= max_length.
Proof.
  unfold split_index, rfind.
  destruct (rfind_char space (firstn max_length content)) as [i|] eqn:E.
  - apply rfind_char_lt in E; rewrite length_firstn in E; lia.
  - lia.
Qed.

Lemma split_step_chunk (content chunk rest : pystr) (max_length : nat) :
  split_step content max_length = (chunk, rest) ->
  length chunk <= max_length.
Proof.
  unfold split_step; intros H; injection H as <- _.
  rewrite length_firstn.
  pose proof (split_index_le content max_length); lia.
Qed.

(** The text left after a cut is strictly shorter: a cut at a positive index
    drops that many characters, a cut at index 0 happens on a leading space,
    which [strip] removes. *)
Lemma split_step_shortens (content chunk rest : pystr) (max_length : nat) :
  1 <= max_length ->
  max_length < length content ->
  split_step content max_length = (chunk, rest) ->
  length rest < length content.
Proof.
  unfold split_step, split_index, rfind; intros Hm Hl H; injection H as _ <-.
  destruct (rfind_char space (firstn max_length content)) as [i|] eqn:E.
  - destruct i as [|i].
    + apply rfind_char_spec in E.
      destruct content as [|c r]; [simpl in Hl; lia|].
      destruct max_length as [|m]; [lia|].
      simpl in E; injection E as ->.
      simpl skipn.
      pose proof (strip_by_head isspace space r isspace_space) as L.
      fold (strip (space :: r)) in L; simpl; lia.
    + pose proof (strip_length (skipn (S i) content)) as L.
      apply rfind_char_lt in E; rewrite length_firstn in E.
      rewrite length_skipn in L; lia.
  - pose proof (strip_length (skipn max_length content)) as L.
    rewrite length_skipn in L; lia.
Qed.

Lemma split_step_pieces (content chunk rest : pystr) (max_length : nat) :
  split_step content max_length = (chunk, rest) ->
  exists lead trail,
    content = chunk ++ lead ++ rest ++ trail
    /\ all_space lead /\ all_space trail.
Proof.
  unfold split_step; intros H; injection H as <- <-.
  destruct (strip_split (skipn (split_index content max_length) content))
    as [lead [trail [E [Hl Ht]]]].
  exists lead, trail; repeat split; try assumption.
  rewrite <- E; symmetry; apply firstn_skipn.
Qed.

(* ================================================================== *)
(** ** The fixed-length segmenter: the loop *)
(* ================================================================== *)

Lemma split_loop_S (fuel : nat) (acc : list pystr) (content : pystr)
    (max_length : nat) :
  split_loop (S fuel) acc content max_length =
  if max_length <? length content then
    let '(chunk, rest) := split_step content max_length in
    split_loop fuel (acc ++ [chunk]) rest max_length
  else Some (acc ++ [content]).
Proof. reflexivity. Qed.

Lemma split_loop_sound (max_length fuel : nat) :
  forall acc content r,
    split_loop fuel acc content max_length = Some r ->
    exists chunks, r = acc ++ chunks /\ splits max_length content chunks.
Proof.
  induction fuel as [|fuel IH]; intros acc content r H; [discriminate|].
  rewrite split_loop_S in H.
  destruct (max_length <? length content) eqn:Hlt.
  - apply Nat.ltb_lt in Hlt.
    destruct (split_step content max_length) as [chunk rest] eqn:Hs.
    destruct (IH _ _ _ H) as [chunks [-> Hc]].
    exists (chunk :: chunks); split.
    + rewrite <- app_assoc; reflexivity.
    + eapply splits_cut; eassumption.
  - apply Nat.ltb_ge in Hlt.
    injection H as <-.
    exists [content]; split; [reflexivity | constructor; assumption].
Qed.

Lemma split_loop_run (max_length : nat) (content : pystr)
    (chunks : list pystr) :
  splits max_length content chunks ->
  forall fuel acc,
    length chunks <= fuel ->
    split_loop fuel acc content max_length = Some (acc ++ chunks).
Proof.
  induction 1 as [content Hle | content chunk rest chunks Hlt Hs _ IH];
    intros fuel acc Hf; (destruct fuel as [|fuel]; [simpl in Hf; lia|]);
    rewrite split_loop_S.
  - apply Nat.ltb_ge in Hle; rewrite Hle; reflexivity.
  - apply Nat.ltb_lt in Hlt; rewrite Hlt, Hs.
    rewrite IH by (simpl in Hf; lia).
    rewrite <- app_assoc; reflexivity.
Qed.

Lemma splits_nonempty (max_length : nat) (content : pystr)
    (chunks : list pystr) :
  splits max_length content chunks -> chunks <> [].
Proof. destruct 1; discriminate. Qed.

Lemma splits_count (max_length : nat) (content : pystr)
    (chunks : list pystr) :
  1 <= max_length ->
  splits max_length content chunks ->
  length chunks <= S (length content).
Proof.
  intros Hm; induction 1 as [content Hle | content chunk rest chunks Hlt Hs _ IH];
    simpl; [lia|].
  pose proof (split_step_shortens _ _ _ _ Hm Hlt Hs); lia.
Qed.

Lemma splits_total (max_length : nat) :
  1 <= max_length ->
  forall content, exists chunks, splits max_length content chunks.
Proof.
  intros Hm content.
  remember (length content) as n eqn:Hn.
  revert content Hn.
  induction n as [n IH] using lt_wf_ind; intros content Hn.
  destruct (le_lt_dec (length content) max_length) as [Hle|Hlt].
  - exists [content]; constructor; assumption.
  - destruct (split_step content max_length) as [chunk rest] eqn:Hs.
    pose proof (split_step_shortens _ _ _ _ Hm Hlt Hs) as Hlen.
    destruct (IH (length rest) ltac:(lia) rest eq_refl) as [chunks Hc].
    exists (chunk :: chunks); eapply splits_cut; eassumption.
Qed.

(** With a limit of zero the loop stops only on a text that [strip] empties:
    a stripped text that is not empty is cut into itself for ever. *)
Lemma splits_zero_stuck (content : pystr) (chunks : list pystr) :
  splits 0 content chunks -> strip content = content -> content = [].
Proof.
  induction 1 as [content Hle | content chunk rest chunks Hlt Hs _ IH];
    intros Hst.
  - destruct content; [reflexivity | simpl in Hle; lia].
  - unfold split_step, split_index, rfind in Hs; simpl in Hs.
    injection Hs as _ <-.
    rewrite Hst in IH.
    rewrite (IH Hst) in Hlt; simpl in Hlt; lia.
Qed.

Lemma splits_zero_count (content : pystr) (chunks : list pystr) :
  splits 0 content chunks -> length chunks <= S (length content).
Proof.
  destruct 1 as [content Hle | content chunk rest chunks Hlt Hs Hr];
    simpl; [lia|].
  unfold split_step, split_index, rfind in Hs; simpl in Hs.
  injection Hs as _ <-.
  pose proof (splits_zero_stuck _ _ Hr (strip_idem content)) as E.
  rewrite E in Hr; inversion Hr; subst; simpl in *; lia.
Qed.

(** The fuel of [split_content] is enough whenever the loop ends: [None]
    is returned only for a loop that does not end. *)
Lemma split_loop_complete (max_length : nat) (content : pystr)
    (chunks : list pystr) :
  splits max_length content chunks ->
  split_content content max_length = Some chunks.
Proof.
  intros H; unfold split_content.
  apply (split_loop_run _ _ _ H (S (length content)) []).
  destruct max_length as [|m].
  - apply splits_zero_count; assumption.
  - eapply splits_count; [|eassumption]; lia.
Qed.

Lemma split_content_splits (max_length : nat) (content : pystr)
    (chunks : list pystr) :
  split_content content max_length = Some chunks <->
  splits max_length content chunks.
Proof.
  split.
  - intros H; apply split_loop_sound in H.
    destruct H as [cs [-> H]]; exact H.
  - apply split_loop_complete.
Qed.

Lemma split_content_total (content : pystr) (max_length : nat) :
  1 <= max_length ->
  exists chunks,
    split_content content max_length = Some chunks
    /\ splits max_length content chunks.
Proof.
  intros Hm; destruct (splits_total _ Hm content) as [chunks H].
  exists chunks; split; [apply split_loop_complete|]; assumption.
Qed.

Lemma split_content_first_chunk (content : pystr) (max_length : nat) :
  1 <= max_length ->
  exists chunk0 others,
    split_content content max_length = Some (chunk0 :: others)
    /\ splits max_length content (chunk0 :: others).
Proof.
  intros Hm.
  destruct (split_content_total content max_length Hm) as [chunks [Hs Hsp]].
  destruct chunks as [|chunk0 others];
    [exfalso; exact (splits_nonempty _ _ _ Hsp eq_refl)|].
  exists chunk0, others; split; assumption.
Qed.

(** A limit of zero on a text that [strip] leaves non-empty: no amount of
    fuel ends the loop. *)
Lemma split_loop_zero_diverges (fuel : nat) (acc : list pystr) :
  split_loop fuel acc (str "a") 0 = None.
Proof.
  revert acc; induction fuel as [|fuel IH]; intros acc; [reflexivity|].
  simpl; apply IH.
Qed.

Lemma splits_bounded (max_length : nat) (content : pystr)
    (chunks : list pystr) :
  splits max_length content chunks ->
  Forall (fun c => length c <= max_length) chunks.
Proof.
  induction 1 as [content Hle | content chunk rest chunks Hlt Hs _ IH].
  - constructor; [assumption | constructor].
  - constructor; [eapply split_step_chunk; eassumption | assumption].
Qed.

Lemma splits_restore (max_length : nat) (content : pystr)
    (chunks : list pystr) :
  splits max_length content chunks ->
  exists ws,
    S (length ws) = length chunks
    /\ Forall both_space ws
    /\ restore chunks ws = content.
Proof.
  induction 1 as [content Hle | content chunk rest chunks Hlt Hs _ IH].
  - exists []; repeat split; constructor.
  - destruct IH as [ws [Hn [Hw Hr]]].
    destruct (split_step_pieces _ _ _ _ Hs) as [lead [trail [E [Hl Ht]]]].
    exists ((lead, trail) :: ws); repeat split.
    + simpl; lia.
    + constructor; [split; assumption | assumption].
    + simpl; rewrite Hr; symmetry; exact E.
Qed.

(* ================================================================== *)
(** ** Markers *)
(* ================================================================== *)

Lemma strip_prefix_spec (p s r : pystr) :
  strip_prefix p s = Some r <-> s = p ++ r.
Proof.
  revert s; induction p as [|a p IH]; intros s; simpl.
  - split; [intros H; injection H as ->; reflexivity | intros ->; reflexivity].
  - destruct s as [|b s]; [split; discriminate|].
    destruct (Ascii.eqb a b) eqn:E.
    + apply Ascii.eqb_eq in E; subst b.
      rewrite IH; split; [intros ->; reflexivity | intros H; injection H as ->; reflexivity].
    + apply Ascii.eqb_neq in E.
      split; [discriminate | intros H; injection H as -> _; congruence].
Qed.

Lemma digits_len_le (s : pystr) : digits_len s <= length s.
Proof.
  induction s as [|c r IH]; simpl; [lia|].
  destruct (isdigit c); simpl; lia.
Qed.

Lemma digits_len_firstn (s : pystr) :
  Forall (fun c => isdigit c = true) (firstn (digits_len s) s).
Proof.
  induction s as [|c r IH]; simpl; [constructor|].
  destruct (isdigit c) eqn:E; simpl; constructor; assumption.
Qed.

(** A match of [Slide \d+:] spelled out. *)
Lemma marker_at_inv (s : pystr) (n : nat) :
  marker_at s = Some n ->
  exists ds rest,
    s = str "Slide " ++ ds ++ ":"%char :: rest
    /\ Forall (fun c => isdigit c = true) ds
    /\ n = 6 + length ds + 1.
Proof.
  unfold marker_at; intros H.
  destruct (strip_prefix (str "Slide ") s) as [r|] eqn:Hp; [|discriminate].
  apply strip_prefix_spec in Hp.
  pose proof (digits_len_firstn r) as Hd.
  pose proof (digits_len_le r) as Hle.
  pose proof (firstn_skipn (digits_len r) r) as Hr.
  destruct (digits_len r) as [|d] eqn:Ed; [discriminate|].
  destruct (skipn (S d) r) as [|c rest] eqn:Es; [discriminate|].
  destruct (Ascii.eqb c ":") eqn:Ec; [|discriminate].
  apply Ascii.eqb_eq in Ec; subst c.
  injection H as <-.
  exists (firstn (S d) r), rest; repeat split.
  - rewrite Hr; exact Hp.
  - exact Hd.
  - rewrite length_firstn; lia.
Qed.

Lemma marker_at_nil : marker_at [] = None.
Proof. reflexivity. Qed.

Lemma marker_at_head (c : ascii) (t : pystr) :
  Ascii.eqb "S" c = false -> marker_at (c :: t) = None.
Proof.
  intros H; destruct (marker_at (c :: t)) as [n|] eqn:E; [|reflexivity].
  destruct (marker_at_inv _ _ E) as [ds [rest [Es _]]].
  injection Es as -> _.
  rewrite Ascii.eqb_refl in H; discriminate.
Qed.

Lemma marker_at_length (s : pystr) (n : nat) :
  marker_at s = Some n -> 8 <= n <= length s.
Proof.
  intros H; destruct (marker_at_inv _ _ H) as [ds [rest [-> [Hd ->]]]].
  rewrite !length_app; simpl length.
  destruct ds as [|c ds]; [discriminate H|]; simpl; lia.
Qed.

Lemma digits_colon_no_marker (ds rest : pystr) (k : nat) :
  Forall (fun c => isdigit c = true) ds ->
  k <= length ds ->
  marker_at (skipn k (ds ++ ":"%char :: rest)) = None.
Proof.
  intros Hd; revert k; induction Hd as [|c ds Hc _ IH]; intros k Hk.
  - simpl in Hk; replace k with 0 by lia; reflexivity.
  - destruct k as [|k].
    + simpl; apply marker_at_head.
      destruct (Ascii.eqb "S" c) eqn:E; [|reflexivity].
      apply Ascii.eqb_eq in E; subst c; discriminate Hc.
    + simpl; apply IH; simpl in Hk; lia.
Qed.

(** No marker starts inside a marker: its characters after the first are
    "lide ", digits and a colon. *)
Lemma marker_at_inside (s : pystr) (n j : nat) :
  marker_at s = Some n -> 0 < j < n -> marker_at (skipn j s) = None.
Proof.
  intros H Hj; destruct (marker_at_inv _ _ H) as [ds [rest [-> [Hd ->]]]].
  change (str "Slide ") with ["S"; "l"; "i"; "d"; "e"; " "]%char.
  do 6 (destruct j as [|j]; [first [lia | reflexivity]|]).
  simpl; apply digits_colon_no_marker; [assumption | lia].
Qed.

(** The lazy run stops at the first place where the lookahead holds. *)
Lemma lazy_any_spec (s a r : pystr) :
  lazy_any s = (a, r) ->
  s = a ++ r
  /\ lookahead r = true
  /\ forall j, j < length a -> lookahead (skipn j s) = false.
Proof.
  revert a r; induction s as [|c t IH]; intros a r H.
  - simpl in H; injection H as <- <-; repeat split; simpl; intros; lia.
  - cbn [lazy_any] in H.
    destruct (lookahead (c :: t)) eqn:El.
    + injection H as <- <-; repeat split; [assumption | simpl; intros; lia].
    + destruct (lazy_any t) as [a' r'] eqn:Et.
      injection H as <- <-.
      destruct (IH _ _ eq_refl) as [E [Hl Hj]].
      repeat split.
      * simpl; f_equal; exact E.
      * exact Hl.
      * intros [|j] Hlt; [exact El | simpl; apply Hj; simpl in Hlt; lia].
Qed.

Lemma lazy_any_length (s a r : pystr) :
  lazy_any s = (a, r) -> length s = length a + length r.
Proof.
  intros H; apply lazy_any_spec in H; destruct H as [-> _].
  apply length_app.
Qed.

Lemma lookahead_false_marker (s : pystr) :
  lookahead s = false -> marker_at s = None.
Proof.
  unfold lookahead; destruct (marker_at s); [discriminate | reflexivity].
Qed.

Lemma findall_loop_S (fuel : nat) (c : ascii) (r : pystr) :
  findall_loop (S fuel) (c :: r) =
  match marker_at (c :: r) with
  | Some n =>
      let '(body, rest) := lazy_any (skipn n (c :: r)) in
      (firstn n (c :: r) ++ body) :: findall_loop fuel rest
  | None => findall_loop fuel r
  end.
Proof. reflexivity. Qed.

(** Any fuel at least the length of the text gives the same matches. *)
Lemma findall_loop_fuel (f1 : nat) :
  forall f2 s,
    length s <= f1 -> length s <= f2 ->
    findall_loop f1 s = findall_loop f2 s.
Proof.
  induction f1 as [|f1 IH]; intros f2 s H1 H2.
  - destruct s; [|simpl in H1; lia]. destruct f2; reflexivity.
  - destruct s as [|c r]; [destruct f2; reflexivity|].
    destruct f2 as [|f2]; [simpl in H2; lia|].
    rewrite !findall_loop_S.
    destruct (marker_at (c :: r)) as [n|] eqn:Em.
    + destruct (lazy_any (skipn n (c :: r))) as [body rest] eqn:El.
      pose proof (lazy_any_length _ _ _ El) as L.
      pose proof (marker_at_length _ _ Em) as Ln.
      rewrite length_skipn in L.
      f_equal; apply IH; cbn [length] in *; lia.
    + apply IH; cbn [length] in *; lia.
Qed.

(* ================================================================== *)
(** ** The matches of the marker pattern, by position *)
(* ================================================================== *)

Lemma marker_positions_from_shift (s : pystr) :
  forall off,
    marker_positions_from off s = map (Nat.add off) (marker_positions s).
Proof.
  unfold marker_positions.
  induction s as [|c r IH]; intros off; [reflexivity|].
  cbn [marker_positions_from].
  assert (E : marker_positions_from (S off) r
              = map (Nat.add off) (marker_positions_from 1 r)).
  { rewrite (IH (S off)), (IH 1), map_map.
    apply map_ext; intros x; lia. }
  destruct (marker_at (c :: r)); cbn [map]; rewrite E.
  - f_equal; lia.
  - reflexivity.
Qed.

(** Positions that start no marker can be skipped. *)
Lemma marker_positions_skip (k : nat) :
  forall s off,
    k <= length s ->
    (forall j, j < k -> marker_at (skipn j s) = None) ->
    marker_positions_from off s = marker_positions_from (off + k) (skipn k s).
Proof.
  induction k as [|k IH]; intros s off Hk Hn.
  - rewrite Nat.add_0_r; reflexivity.
  - destruct s as [|c r]; [simpl in Hk; lia|].
    cbn [marker_positions_from skipn].
    rewrite (Hn 0 ltac:(lia) : marker_at (c :: r) = None).
    rewrite (IH r (S off)).
    + f_equal; lia.
    + simpl in Hk; lia.
    + intros j Hj; apply (Hn (S j)); lia.
Qed.

Lemma marker_positions_head (s : pystr) (n : nat) :
  marker_at s = Some n ->
  exists c r,
    s = c :: r /\ marker_positions s = 0 :: marker_positions_from 1 r.
Proof.
  intros H; destruct s as [|c r]; [discriminate H|].
  exists c, r; split; [reflexivity|].
  unfold marker_positions; cbn [marker_positions_from]; rewrite H; reflexivity.
Qed.

Lemma substring_shift (pre t : pystr) (p q : nat) :
  substring (length pre + p) (length pre + q) (pre ++ t) = substring p q t.
Proof.
  unfold substring.
  rewrite skipn_app, skipn_all2 by lia.
  replace (length pre + p - length pre) with p by lia.
  replace (length pre + q - (length pre + p)) with (q - p) by lia.
  reflexivity.
Qed.

Lemma spans_between_shift (pre t : pystr) (ps : list nat) (stop : nat) :
  spans_between (pre ++ t) (map (Nat.add (length pre)) ps) (length pre + stop)
  = spans_between t ps stop.
Proof.
  induction ps as [|p ps IH]; [reflexivity|].
  cbn [map spans_between]; rewrite IH; f_equal.
  destruct ps as [|p' ps]; cbn [map]; apply substring_shift.
Qed.

Lemma substring_prefix (pre t : pystr) :
  substring 0 (length pre) (pre ++ t) = pre.
Proof.
  unfold substring; rewrite Nat.sub_0_r; cbn [skipn].
  rewrite firstn_app, firstn_all, Nat.sub_diag; cbn [firstn].
  apply app_nil_r.
Qed.

Lemma spans_between_first (m t : pystr) (ps : list nat) (stop : nat) :
  spans_between (m ++ t) (0 :: map (Nat.add (length m)) (0 :: ps))
    (length m + stop)
  = m :: spans_between t (0 :: ps) stop.
Proof.
  rewrite <- (spans_between_shift m t (0 :: ps) stop).
  cbn [map spans_between].
  rewrite Nat.add_0_r, substring_prefix; reflexivity.
Qed.

Lemma dollar_end_app (pre t : pystr) :
  t <> [] -> dollar_end (pre ++ t) = length pre + dollar_end t.
Proof.
  intros Ht; unfold dollar_end.
  rewrite rev_app_distr, length_app.
  destruct (rev t) as [|c u] eqn:E.
  - apply (f_equal (@rev ascii)) in E; rewrite rev_involutive in E.
    simpl in E; contradiction.
  - assert (L : 1 <= length t).
    { destruct t; [contradiction | simpl; lia]. }
    cbn [app]; destruct (Ascii.eqb c newline); lia.
Qed.

Lemma dollar_end_newline (pre : pystr) :
  dollar_end (pre ++ [newline]) = length pre.
Proof.
  unfold dollar_end; rewrite rev_app_distr, length_app; cbn [rev app length].
  rewrite Ascii.eqb_refl; lia.
Qed.

Lemma dollar_end_other (pre : pystr) (x : ascii) :
  Ascii.eqb x newline = false ->
  dollar_end (pre ++ [x]) = length (pre ++ [x]).
Proof.
  intros H; unfold dollar_end; rewrite rev_app_distr; cbn [rev app].
  rewrite H; reflexivity.
Qed.

Lemma at_dollar_inv (s : pystr) :
  at_dollar s = true -> s = [] \/ s = [newline].
Proof.
  destruct s as [|c [|d s]]; simpl; intros H;
    [left; reflexivity | right | discriminate].
  apply Ascii.eqb_eq in H; subst; reflexivity.
Qed.

(** A match that runs to the very end of the text does not end in a
    newline: [$] would have stopped the lazy run before it. *)
Lemma match_to_end_last (s a : pystr) (n : nat) :
  marker_at s = Some n ->
  lazy_any (skipn n s) = (a, []) ->
  dollar_end s = length s.
Proof.
  intros Hm Hl.
  destruct (lazy_any_spec _ _ _ Hl) as [E [_ Hj]].
  rewrite app_nil_r in E.
  destruct a as [|x a' _] using rev_ind.
  - (* nothing after the marker: the text ends in its colon *)
    destruct (marker_at_inv _ _ Hm) as [ds [rest [Es [_ En]]]].
    assert (Er : rest = []).
    { rewrite <- E, Es, En.
      rewrite (app_assoc (str "Slide ") ds), skipn_app.
      rewrite skipn_all2 by (rewrite length_app; simpl; lia).
      rewrite length_app; simpl length.
      replace (6 + length ds + 1 - (6 + length ds)) with 1 by lia.
      reflexivity. }
    rewrite Es, Er, (app_assoc (str "Slide ") ds).
    apply dollar_end_other; reflexivity.
  - (* the last character of the run was passed over by the lookahead *)
    assert (Hx : lookahead [x] = false).
    { specialize (Hj (length a') ltac:(rewrite length_app; simpl; lia)).
      rewrite E, skipn_app, skipn_all, Nat.sub_diag in Hj; exact Hj. }
    unfold lookahead in Hx.
    destruct (marker_at [x]); [discriminate|]; simpl in Hx.
    rewrite <- (firstn_skipn n s), E, app_assoc.
    apply dollar_end_other; exact Hx.
Qed.

(** The positions after a match: none inside it, then those of the rest. *)
Lemma marker_positions_match (s a r2 : pystr) (n : nat) :
  marker_at s = Some n ->
  lazy_any (skipn n s) = (a, r2) ->
  s = (firstn n s ++ a) ++ r2
  /\ length (firstn n s ++ a) = n + length a
  /\ marker_positions s
     = 0 :: map (Nat.add (n + length a)) (marker_positions r2).
Proof.
  intros Hm Hl.
  destruct (lazy_any_spec _ _ _ Hl) as [E [_ Hj]].
  pose proof (marker_at_length _ _ Hm) as Ln.
  assert (Es : s = (firstn n s ++ a) ++ r2).
  { rewrite <- app_assoc, <- E; symmetry; apply firstn_skipn. }
  assert (Lp : length (firstn n s ++ a) = n + length a).
  { rewrite length_app, length_firstn; lia. }
  repeat split; [exact Es | exact Lp |].
  destruct (marker_positions_head _ _ Hm) as [c [r [Ec Ep]]].
  rewrite Ep.
  assert (Er2 : skipn (n + length a - 1) r = r2).
  { replace r with (skipn 1 s) by (rewrite Ec; reflexivity).
    rewrite skipn_skipn.
    replace (n + length a - 1 + 1) with (length (firstn n s ++ a)) by lia.
    rewrite Es at 2; rewrite skipn_app, skipn_all, Nat.sub_diag; reflexivity. }
  rewrite (marker_positions_skip (n + length a - 1) r 1).
  - rewrite Er2.
    replace (1 + (n + length a - 1)) with (n + length a) by lia.
    rewrite marker_positions_from_shift; reflexivity.
  - apply (f_equal (@length ascii)) in Es.
    rewrite length_app, Lp, Ec in Es; simpl in Es; lia.
  - intros j Hjk.
    replace (skipn j r) with (skipn (S j) s) by (rewrite Ec; reflexivity).
    destruct (lt_dec (S j) n) as [Hin|Hout].
    + apply (marker_at_inside _ _ _ Hm); lia.
    + apply lookahead_false_marker.
      replace (S j) with ((S j - n) + n) by lia.
      rewrite <- skipn_skipn; apply Hj; lia.
Qed.

(** [findall] returns, for each position where a marker starts, the text
    from there to the next such position, the last match ending where [$]
    holds. *)
Lemma findall_loop_spans (fuel : nat) :
  forall s,
    length s <= fuel ->
    findall_loop fuel s
    = spans_between s (marker_positions s) (dollar_end s).
Proof.
  induction fuel as [|fuel IH]; intros s Hf.
  - destruct s; [reflexivity | simpl in Hf; lia].
  - destruct s as [|c r]; [reflexivity|].
    rewrite findall_loop_S.
    destruct (marker_at (c :: r)) as [n|] eqn:Em.
    + destruct (lazy_any (skipn n (c :: r))) as [a r2] eqn:El.
      destruct (marker_positions_match _ _ _ _ Em El) as [Es [Lp Ep]].
      pose proof (lazy_any_spec _ _ _ El) as [_ [Hl _]].
      assert (Lr : length r2 <= fuel).
      { apply (f_equal (@length ascii)) in Es.
        rewrite length_app, Lp in Es.
        pose proof (marker_at_length _ _ Em).
        cbn [length] in *; lia. }
      rewrite (IH r2 Lr), Ep.
      set (m := firstn n (c :: r) ++ a) in *.
      unfold lookahead in Hl.
      destruct (marker_at r2) as [n2|] eqn:Em2.
      * (* the match stops at the next marker *)
        destruct (marker_positions_head _ _ Em2) as [c2 [r2' [Ec2 Ep2]]].
        assert (Hne : r2 <> []) by (rewrite Ec2; discriminate).
        rewrite Es.
        rewrite (dollar_end_app m r2 Hne), <- Lp.
        rewrite Ep2.
        symmetry; apply spans_between_first.
      * (* the match stops where [$] holds *)
        assert (Ep2 : marker_positions r2 = []).
        { destruct (at_dollar_inv _ Hl) as [->| ->]; [reflexivity|].
          unfold marker_positions; cbn [marker_positions_from].
          rewrite Em2; reflexivity. }
        rewrite Ep2; cbn [map spans_between].
        f_equal.
        assert (Ed : dollar_end (c :: r) = length m).
        { destruct (at_dollar_inv _ Hl) as [E2|E2].
          - rewrite E2 in El.
            rewrite (match_to_end_last _ _ _ Em El).
            rewrite Es; rewrite E2, app_nil_r; reflexivity.
          - rewrite Es, E2; apply dollar_end_newline. }
        rewrite Ed; rewrite Es; rewrite substring_prefix; reflexivity.
    + unfold marker_positions; cbn [marker_positions_from]; rewrite Em.
      rewrite marker_positions_from_shift.
      rewrite IH by (simpl in Hf; lia).
      destruct (marker_positions r) as [|p ps] eqn:Ep; [reflexivity|].
      assert (Hne : r <> []) by (intros ->; discriminate Ep).
      change (c :: r) with ([c] ++ r).
      rewrite (dollar_end_app [c] r Hne).
      symmetry; apply (spans_between_shift [c] r (p :: ps)).
Qed.

Lemma findall_spans (content : pystr) :
  findall content
  = spans_between content (marker_positions content) (dollar_end content).
Proof. apply findall_loop_spans; lia. Qed.

Lemma spans_between_length (s : pystr) (ps : list nat) (stop : nat) :
  length (spans_between s ps stop) = length ps.
Proof. induction ps as [|p ps IH]; simpl; [reflexivity | rewrite IH; reflexivity]. Qed.

(* ================================================================== *)
(** ** Removing the bold marker *)
(* ================================================================== *)

Lemma remove_double_star_id (x : pystr) :
  contains (str "**") x = false -> remove_double_star x = x.
Proof.
  induction x as [|c r IH]; intros H; [reflexivity|].
  cbn [contains] in H; apply orb_false_iff in H; destruct H as [Hs Hc].
  cbn [remove_double_star].
  destruct r as [|d r']; [reflexivity|].
  change (str "**") with [star; star] in Hs; cbn [startswith] in Hs.
  destruct (Ascii.eqb_spec c star) as [->|Hcs],
           (Ascii.eqb_spec d star) as [->|Hds];
    cbn [andb]; rewrite ?(IH Hc); try reflexivity.
  rewrite !Ascii.eqb_refl in Hs; discriminate.
Qed.

Lemma remove_double_star_wrap (x : pystr) :
  remove_double_star (wrap_bold x) = remove_double_star x.
Proof. destruct x; reflexivity. Qed.

(* ================================================================== *)
(** ** App.py: the generation cycle *)
(* ================================================================== *)

Module FactsA.

Import VariantA.

Lemma generate_content_no_key (rt : Runtime) (p : pystr) (w : World) :
  key_missing rt = true ->
  generate_content rt p w
  = (Ok (str "Error: Missing API key."),
     mkWorld (requests w)
       (screen w ++ [st_error (str "Gemini API key not found. Please set it in the .env file.")])
       (files w)).
Proof. intros H; unfold generate_content; rewrite H; reflexivity. Qed.

(** [generate_content] always returns a string, sends at most one request
    and writes no file. *)
Lemma generate_content_returns (rt : Runtime) (p : pystr) (w : World) :
  exists content w1,
    generate_content rt p w = (Ok content, w1)
    /\ files w1 = files w
    /\ (if key_missing rt then requests w1 = requests w
        else requests w1 = requests w ++ [p]).
Proof.
  unfold generate_content.
  destruct (key_missing rt).
  - eexists _, _; repeat split.
  - unfold bind, ask_model.
    destruct (model_generate rt (length (requests w)) p) as [text|e];
      eexists _, _; repeat split.
Qed.

Lemma topics_loop (content chunk0 : pystr) (others : list pystr) :
  split_content content 900 = Some (chunk0 :: others) ->
  forall topics prs w,
    for_each topics (topic_body content) prs w
    = (Ok (prs ++ flat_map (fun topic => topic_slides topic chunk0 others) topics),
       mkWorld (requests w) (screen w ++ topic_lines content topics) (files w)).
Proof.
  intros Hs; induction topics as [|topic topics IH]; intros prs w.
  - destruct w; cbn; rewrite !app_nil_r; reflexivity.
  - cbn [for_each]; unfold bind at 1.
    assert (E : topic_body content topic prs w
                = (Ok (prs ++ topic_slides topic chunk0 others),
                   mkWorld (requests w)
                     (screen w ++ [st_write (str "### " ++ topic); st_write content])
                     (files w))).
    { unfold topic_body; rewrite Hs.
      unfold bind, emit, ret; cbn [requests screen files].
      rewrite <- app_assoc; reflexivity. }
    rewrite E, IH; cbn [requests screen files].
    unfold topic_lines; cbn [flat_map].
    rewrite <- !app_assoc; reflexivity.
Qed.

(** One generation cycle of App.py, whatever the answer of the model. *)
Lemma create_presentation_run (rt : Runtime) (title : pystr)
    (topics : list pystr) (w : World) :
  exists content w1 chunk0 others,
    generate_content rt (prompt rt title topics) w = (Ok content, w1)
    /\ split_content content 900 = Some (chunk0 :: others)
    /\ create_presentation rt title topics w
       = (Ok (file_name_of title),
          mkWorld (requests w1) (screen w1 ++ topic_lines content topics)
            ((file_name_of title,
              title_slide title
                :: flat_map (fun topic => topic_slides topic chunk0 others) topics)
               :: files w1)).
Proof.
  destruct (generate_content_returns rt (prompt rt title topics) w)
    as [content [w1 [Hg _]]].
  destruct (split_content_first_chunk content 900 ltac:(lia))
    as [chunk0 [others [Hs _]]].
  exists content, w1, chunk0, others; repeat split; try assumption.
  unfold create_presentation.
  unfold bind at 1; rewrite Hg.
  unfold bind at 1; rewrite (topics_loop _ _ _ Hs).
  reflexivity.
Qed.

End FactsA.

(* ================================================================== *)
(** ** App1.py: the generation cycle *)
(* ================================================================== *)

Module FactsB.

Import VariantB.

Lemma process_slide_title_one_line (slide : pystr) :
  (forall c, In c slide -> c <> newline) ->
  process_slide_title slide = None.
Proof.
  intros H; unfold process_slide_title.
  assert (E : split_first_line slide = inl slide).
  { induction slide as [|c r IH]; [reflexivity|].
    cbn [split_first_line].
    destruct (Ascii.eqb_spec c newline) as [->|_].
    - exfalso; apply (H newline); [left; reflexivity | reflexivity].
    - rewrite IH; [reflexivity|].
      intros d Hd; apply H; right; exact Hd. }
  rewrite E; reflexivity.
Qed.

Lemma split_first_line_inr (s part0 part1 : pystr) :
  split_first_line s = inr (part0, part1) ->
  s = part0 ++ newline :: part1 /\ ~ In newline part0.
Proof.
  revert part0; induction s as [|c r IH]; intros part0 H; [discriminate|].
  cbn [split_first_line] in H.
  destruct (Ascii.eqb_spec c newline) as [->|Hc].
  - injection H as <- <-; split; [reflexivity | intros []].
  - destruct (split_first_line r) as [l|[l rest]]; [discriminate|].
    injection H as <- <-.
    destruct (IH l eq_refl) as [E Hn]; split.
    + simpl; f_equal; exact E.
    + intros [Hin|Hin]; [congruence | exact (Hn Hin)].
Qed.

Lemma header_match_inv (slide_header slide_number g2 : pystr) :
  header_match slide_header = Some (slide_number, g2) ->
  exists rest,
    slide_header = str "Slide " ++ slide_number ++ str ": " ++ rest
    /\ slide_number <> []
    /\ Forall (fun c => isdigit c = true) slide_number
    /\ g2 = upto_newline rest
    /\ g2 <> [].
Proof.
  unfold header_match; intros H.
  destruct (strip_prefix (str "Slide ") slide_header) as [r|] eqn:Hp;
    [|discriminate].
  apply strip_prefix_spec in Hp.
  pose proof (digits_len_firstn r) as Hd.
  pose proof (digits_len_le r) as Hle.
  pose proof (firstn_skipn (digits_len r) r) as Hr.
  destruct (digits_len r) as [|d] eqn:Ed; [discriminate|].
  destruct (strip_prefix (str ": ") (skipn (S d) r)) as [rest|] eqn:Hc;
    [|discriminate].
  apply strip_prefix_spec in Hc.
  destruct (upto_newline rest) as [|x g] eqn:Eg; [discriminate|].
  injection H as <- <-.
  exists rest; repeat split.
  - rewrite <- Hc.
    change (slide_header = str "Slide " ++ firstn (S d) r ++ skipn (S d) r).
    rewrite Hr; exact Hp.
  - change (firstn (S d) r <> []).
    intros E; apply (f_equal (@length ascii)) in E.
    rewrite length_firstn in E; cbn [length] in E; lia.
  - exact Hd.
  - symmetry; exact Eg.
  - discriminate.
Qed.

(** The parser returns a triple only for a fragment made of a header
    "Slide <n>: <heading>" (up to surrounding whitespace), a newline and
    the points; every other fragment gives [None]. *)
Lemma process_slide_title_parsed
    (slide slide_number title points_string : pystr) :
  process_slide_title slide = Some (slide_number, title, points_string) ->
  exists part0 part1 heading,
    slide = part0 ++ newline :: part1
    /\ ~ In newline part0
    /\ strip part0 = str "Slide " ++ slide_number ++ str ": " ++ heading
    /\ slide_number <> []
    /\ Forall (fun c => isdigit c = true) slide_number
    /\ upto_newline heading <> []
    /\ title = strip (upto_newline heading).
Proof.
  unfold process_slide_title; intros H.
  destruct (split_first_line slide) as [l|[part0 part1]] eqn:Es;
    [discriminate|].
  destruct (header_match (strip part0)) as [[no g2]|] eqn:Eh; [|discriminate].
  injection H as <- <- _.
  destruct (split_first_line_inr _ _ _ Es) as [E Hn].
  destruct (header_match_inv _ _ _ Eh) as [rest [Hh [Hne [Hd [Hg Hg']]]]].
  exists part0, part1, rest; subst g2; repeat split; assumption.
Qed.

(** One fragment that does not parse is enough for [generate_ppt] to raise:
    no deck comes out, whatever the other fragments are. *)
Lemma add_slides_unparsed (slides : list pystr) :
  forall prs,
    (exists slide, In slide slides /\ process_slide_title slide = None) ->
    add_slides slides prs = inl TypeError.
Proof.
  induction slides as [|s rest IH]; intros prs [slide [Hin Hn]].
  - destruct Hin.
  - cbn [add_slides].
    destruct (process_slide_title s) as [[[no title] content]|] eqn:E;
      [|reflexivity].
    apply IH; exists slide; split; [|exact Hn].
    destruct Hin as [->|Hin]; [congruence | exact Hin].
Qed.

(** When every fragment parses, each one adds exactly one content slide. *)
Lemma add_slides_parsed (slides : list pystr) :
  forall prs,
    (forall slide, In slide slides -> process_slide_title slide <> None) ->
    exists deck,
      add_slides slides prs = inr (prs ++ deck)
      /\ length deck = length slides
      /\ Forall (fun s => is_content_slide s = true) deck.
Proof.
  induction slides as [|s rest IH]; intros prs H.
  - exists []; rewrite app_nil_r; repeat split; constructor.
  - cbn [add_slides].
    destruct (process_slide_title s) as [[[no title] content]|] eqn:E;
      [|exfalso; apply (H s); [left; reflexivity | exact E]].
    destruct (IH (prs ++ [content_slide no title content])
                 (fun x Hx => H x (or_intror Hx))) as [deck [Ed [Hl Hc]]].
    exists (content_slide no title content :: deck); repeat split.
    + rewrite Ed, <- app_assoc; reflexivity.
    + simpl; rewrite Hl; reflexivity.
    + constructor; [reflexivity | exact Hc].
Qed.

Lemma create_presentation_no_key (rt : Runtime) (title : pystr)
    (topics : list pystr) (w : World) :
  key_missing rt = true ->
  create_presentation rt title topics w
  = (Ok (ErrorString (str "Error: Missing API key.")),
     mkWorld (requests w)
       (screen w ++ [st_error (str "Gemini API key not found. Please set it in the .env file.")])
       (files w)).
Proof.
  intros H; unfold create_presentation, generate_content; rewrite H.
  reflexivity.
Qed.

(** Without the credential App1.py shows the error and stops: no request is
    sent, [generate_ppt] is not called, nothing is offered for download. *)
Lemma on_submit_no_key (rt : Runtime) (title topics_input : pystr)
    (w : World) :
  key_missing rt = true ->
  parse_topics topics_input <> [] ->
  on_submit rt title topics_input w
  = (Ok tt,
     mkWorld (requests w)
       (screen w
          ++ [st_info (str "Generating your presentation. Please wait...");
              st_error (str "Gemini API key not found. Please set it in the .env file.");
              st_error (str "Error: Missing API key.")])
       (files w)).
Proof.
  intros Hk Ht; unfold on_submit.
  destruct (parse_topics topics_input) as [|t ts]; [contradiction|].
  unfold bind at 1; unfold emit at 1.
  unfold bind at 1; rewrite (create_presentation_no_key _ _ _ _ Hk).
  change (startswith (str "Error") (str "Error: Missing API key.")) with true.
  cbn iota; unfold emit; cbn [requests screen files].
  rewrite <- !app_assoc; reflexivity.
Qed.

End FactsB.

(* ================================================================== *)
(** ** The fixed-length segmenter: what every run guarantees *)
(* ================================================================== *)

(** C9. With a limit of at least 1 the loop of [split_content] ends: every
    turn leaves a strictly shorter text, also when the only space of the
    window is at index 0 or when the window holds no space; the list
    returned has a first chunk, and so has the one [create_presentation]
    asks for with the limit 900, whose [content_chunks[0]] never fails, the
    empty text included. *)
Theorem split_content_terminates (content : pystr) (max_length : nat) :
  1 <= max_length ->
  (forall text chunk rest,
      max_length < length text ->
      split_step text max_length = (chunk, rest) ->
      length rest < length text)
  /\ (exists chunk0 others,
        split_content content max_length = Some (chunk0 :: others))
  /\ (forall topic prs w,
        exists chunk0 others w',
          split_content content 900 = Some (chunk0 :: others)
          /\ VariantA.topic_body content topic prs w
             = (Ok (prs ++ VariantA.topic_slides topic chunk0 others), w')).
Proof.
  intros Hm; split; [|split].
  - intros text chunk rest Hl Hs.
    exact (split_step_shortens _ _ _ _ Hm Hl Hs).
  - destruct (split_content_first_chunk content max_length Hm)
      as [chunk0 [others [Hs _]]].
    exists chunk0, others; exact Hs.
  - intros topic prs w.
    destruct (split_content_first_chunk content 900 ltac:(lia))
      as [chunk0 [others [Hs _]]].
    exists chunk0, others; eexists; split; [exact Hs|].
    unfold VariantA.topic_body; rewrite Hs; reflexivity.
Qed.

Lemma split_content_terminates_witness :
  1 <= 3
  /\ (forall text chunk rest,
        3 < length text ->
        split_step text 3 = (chunk, rest) ->
        length rest < length text)
  /\ (exists chunk0 others,
        split_content (str " abcdefgh") 3 = Some (chunk0 :: others))
  /\ (forall topic prs w,
        exists chunk0 others w',
          split_content (str " abcdefgh") 900 = Some (chunk0 :: others)
          /\ VariantA.topic_body (str " abcdefgh") topic prs w
             = (Ok (prs ++ VariantA.topic_slides topic chunk0 others), w')).
Proof.
  split; [lia | apply (split_content_terminates (str " abcdefgh") 3); lia].
Defined.

(** C4. For every text and every limit of at least 1, [split_content]
    returns and none of its chunks is longer than the limit.  No exception
    is needed for a word longer than the limit: it is cut at the limit. *)
Theorem split_content_chunks_bounded (content : pystr) (max_length : nat) :
  1 <= max_length ->
  exists chunks,
    split_content content max_length = Some chunks
    /\ Forall (fun chunk => length chunk <= max_length) chunks.
Proof.
  intros Hm.
  destruct (split_content_total content max_length Hm) as [chunks [Hs Hsp]].
  exists chunks; split; [exact Hs | exact (splits_bounded _ _ _ Hsp)].
Qed.

Lemma split_content_chunks_bounded_witness :
  1 <= 3
  /\ exists chunks,
       split_content (str "abcdefgh ij") 3 = Some chunks
       /\ Forall (fun chunk => length chunk <= 3) chunks.
Proof.
  split; [lia | apply (split_content_chunks_bounded (str "abcdefgh ij") 3); lia].
Defined.

(** C5. For every text and every limit of at least 1, the chunks of
    [split_content], put back together in order with, at each cut, the
    whitespace that [strip] took off the two ends of the remainder, give
    the text back. *)
Theorem split_content_restores (content : pystr) (max_length : nat) :
  1 <= max_length ->
  exists chunks ws,
    split_content content max_length = Some chunks
    /\ S (length ws) = length chunks
    /\ Forall both_space ws
    /\ restore chunks ws = content.
Proof.
  intros Hm.
  destruct (split_content_total content max_length Hm) as [chunks [Hs Hsp]].
  destruct (splits_restore _ _ _ Hsp) as [ws H].
  exists chunks, ws; split; [exact Hs | exact H].
Qed.

Lemma split_content_restores_witness :
  1 <= 5
  /\ exists chunks ws,
       split_content (str "aaa  bbb ccc  ") 5 = Some chunks
       /\ S (length ws) = length chunks
       /\ Forall both_space ws
       /\ restore chunks ws = str "aaa  bbb ccc  ".
Proof.
  split; [lia | apply (split_content_restores (str "aaa  bbb ccc  ") 5); lia].
Defined.

(* ================================================================== *)
(** ** The marker segmenter: what every run guarantees *)
(* ================================================================== *)

(** C6, as the code has it.  [split_into_slides] returns one fragment for
    each position of the text where a marker "Slide <n>:" starts; the
    fragment is "**" followed by the text from that position up to the next
    such position (for the last one: up to the end of the text, or up to
    the newline that ends the text), without its last two characters. *)
Theorem split_into_slides_spans (content : pystr) :
  length (split_into_slides content) = length (marker_positions content)
  /\ split_into_slides content
     = map (fun span => str "**" ++ drop_last2 span)
           (spans_between content (marker_positions content)
                          (dollar_end content)).
Proof.
  unfold split_into_slides; rewrite findall_spans; split.
  - rewrite length_map; apply spans_between_length.
  - reflexivity.
Qed.

(** C6 as stated fails: the fragments are not the spans from a marker to
    the next marker or to the end of the text. *)
Lemma split_into_slides_not_the_spans :
  let blob := lines ["Slide 1: A"; "Slide 2: B"]%string in
  marker_positions blob = [0; 11]
  /\ spans_between blob (marker_positions blob) (length blob)
     = [lines ["Slide 1: A"; ""]%string; str "Slide 2: B"]
  /\ split_into_slides blob = [str "**Slide 1: "; str "**Slide 2:"]
  /\ split_into_slides blob
     <> spans_between blob (marker_positions blob) (length blob).
Proof.
  cbv zeta; repeat split; try (vm_compute; reflexivity).
  vm_compute; discriminate.
Qed.

(** C7. For every [x] that does not hold "**", removing the double
    asterisks of [x] with the bold marker put in front gives [x] back, for
    one string and through [remove_double_asteris] for a list. *)
Theorem remove_after_wrap (x : pystr) :
  contains (str "**") x = false ->
  remove_double_star (wrap_bold x) = x
  /\ remove_double_asteris [wrap_bold x] = [x].
Proof.
  intros H.
  assert (E : remove_double_star (wrap_bold x) = x).
  { rewrite remove_double_star_wrap; apply remove_double_star_id; exact H. }
  split; [exact E | cbn [remove_double_asteris map]; rewrite E; reflexivity].
Qed.

Lemma remove_after_wrap_witness :
  contains (str "**") (str "Slide 1: *Intro*") = false
  /\ remove_double_star (wrap_bold (str "Slide 1: *Intro*"))
     = str "Slide 1: *Intro*"
  /\ remove_double_asteris [wrap_bold (str "Slide 1: *Intro*")]
     = [str "Slide 1: *Intro*"].
Proof.
  split; [reflexivity | apply (remove_after_wrap (str "Slide 1: *Intro*")); reflexivity].
Defined.

(* ================================================================== *)
(** ** The decks *)
(* ================================================================== *)

Lemma lookup_file_head (n : pystr) (d : Deck) (fs : list (pystr * Deck)) :
  lookup_file n ((n, d) :: fs) = Some d.
Proof.
  cbn [lookup_file]; destruct (list_eq_dec ascii_dec n n); [reflexivity | contradiction].
Qed.

Lemma topic_slides_content (topic chunk0 : pystr) (others : list pystr) :
  Forall (fun s => is_content_slide s = true)
         (VariantA.topic_slides topic chunk0 others).
Proof.
  unfold VariantA.topic_slides; constructor; [reflexivity|].
  apply Forall_map, Forall_forall; reflexivity.
Qed.

Lemma topic_slides_bodies (topic chunk0 : pystr) (others : list pystr) :
  map body_text (VariantA.topic_slides topic chunk0 others) = chunk0 :: others.
Proof.
  unfold VariantA.topic_slides; cbn [map]; f_equal.
  rewrite map_map; apply map_id.
Qed.

Lemma flat_map_content (topics : list pystr) (chunk0 : pystr)
    (others : list pystr) :
  Forall (fun s => is_content_slide s = true)
    (flat_map (fun topic => VariantA.topic_slides topic chunk0 others) topics)
  /\ length (flat_map (fun topic => VariantA.topic_slides topic chunk0 others)
                      topics)
     = length topics * S (length others).
Proof.
  induction topics as [|t ts [IHc IHl]]; [split; [constructor | reflexivity]|].
  cbn [flat_map]; split.
  - apply Forall_app; split; [apply topic_slides_content | exact IHc].
  - rewrite length_app, IHl; unfold VariantA.topic_slides.
    cbn [length]; rewrite length_map; simpl; lia.
Qed.

(** C8. In App.py the text is asked for once, before the loop over the
    topics (at most one request is sent, none in the loop), and the deck
    written holds, for each topic, slides whose body texts are the chunks of
    that one text: the same sequence for any two topics. *)
Theorem topics_share_one_blob (rt : Runtime) (title : pystr)
    (topics : list pystr) (w : World) :
  exists content w1 chunk0 others w',
    VariantA.generate_content rt (VariantA.prompt rt title topics) w
    = (Ok content, w1)
    /\ length (requests w1) <= S (length (requests w))
    /\ split_content content 900 = Some (chunk0 :: others)
    /\ VariantA.create_presentation rt title topics w
       = (Ok (VariantA.file_name_of title), w')
    /\ requests w' = requests w1
    /\ lookup_file (VariantA.file_name_of title) (files w')
       = Some (VariantA.title_slide title
                 :: flat_map (fun topic => VariantA.topic_slides topic chunk0 others)
                             topics)
    /\ (forall topic,
          map body_text (VariantA.topic_slides topic chunk0 others)
          = chunk0 :: others)
    /\ (forall topic1 topic2,
          map body_text (VariantA.topic_slides topic1 chunk0 others)
          = map body_text (VariantA.topic_slides topic2 chunk0 others)).
Proof.
  destruct (FactsA.create_presentation_run rt title topics w)
    as [content [w1 [chunk0 [others [Hg [Hs Hc]]]]]].
  destruct (FactsA.generate_content_returns rt (VariantA.prompt rt title topics) w)
    as [content' [w1' [Hg' [_ Hr]]]].
  rewrite Hg in Hg'; injection Hg' as <- <-.
  exists content, w1, chunk0, others; eexists.
  split; [exact Hg|].
  split.
  { destruct (key_missing rt); rewrite Hr; [lia|].
    rewrite length_app; simpl; lia. }
  split; [exact Hs|].
  split; [exact Hc|].
  split; [reflexivity|].
  split; [apply lookup_file_head|].
  split.
  - intros topic; apply topic_slides_bodies.
  - intros topic1 topic2; rewrite !topic_slides_bodies; reflexivity.
Qed.

(** C2, as the code has it.  App.py: whatever the topics and the text
    generated, the deck written is one title slide followed, topic by topic,
    by one content slide for each chunk of [split_content(content, 900)],
    at least one a topic.  App1.py: the deck has no title slide; when every
    fragment parses it holds exactly one content slide for each fragment. *)
Theorem deck_shape_by_variant (rt : Runtime) (title : pystr)
    (topics slides : list pystr) (w : World) :
  (forall slide, In slide slides -> process_slide_title slide <> None) ->
  (exists content w1 chunk0 others w' deck,
      VariantA.generate_content rt (VariantA.prompt rt title topics) w
      = (Ok content, w1)
      /\ split_content content 900 = Some (chunk0 :: others)
      /\ VariantA.create_presentation rt title topics w
         = (Ok (VariantA.file_name_of title), w')
      /\ lookup_file (VariantA.file_name_of title) (files w') = Some deck
      /\ deck = VariantA.title_slide title
                  :: flat_map (fun topic => VariantA.topic_slides topic chunk0 others)
                              topics
      /\ one_title_then_content deck
      /\ length deck = 1 + length topics * length (chunk0 :: others))
  /\ (exists deck,
        VariantB.generate_ppt slides w = (Ok deck, w)
        /\ length deck = length slides
        /\ Forall (fun s => is_content_slide s = true) deck
        /\ ~ one_title_then_content deck).
Proof.
  intros Hp; split.
  - destruct (FactsA.create_presentation_run rt title topics w)
      as [content [w1 [chunk0 [others [Hg [Hs Hc]]]]]].
    destruct (flat_map_content topics chunk0 others) as [Fc Fl].
    exists content, w1, chunk0, others; eexists; eexists.
    split; [exact Hg|].
    split; [exact Hs|].
    split; [exact Hc|].
    split; [apply lookup_file_head|].
    split; [reflexivity|].
    split.
    + eexists _, _; split; [reflexivity|]; split; [reflexivity | exact Fc].
    + cbn [length]; rewrite Fl; reflexivity.
  - destruct (FactsB.add_slides_parsed slides [] Hp) as [deck [Ed [Hl Hc]]].
    exists deck; unfold VariantB.generate_ppt; rewrite Ed.
    repeat split; try assumption.
    intros [t [rest [E [Ht _]]]]; subst deck.
    inversion Hc as [|? ? Hct _]; subst.
    unfold is_title_slide in Ht; unfold is_content_slide in Hct.
    destruct (layout t); discriminate.
Qed.

Lemma deck_shape_by_variant_witness :
  let rt := rt_answer bold_blob in
  let title := str "Gen AI" in
  let topics := [str "A"; str "B"] in
  let slides := remove_double_asteris (split_into_slides bold_blob) in
  let w := empty_world in
  (forall slide, In slide slides -> process_slide_title slide <> None)
  /\ (exists content w1 chunk0 others w' deck,
        VariantA.generate_content rt (VariantA.prompt rt title topics) w
        = (Ok content, w1)
        /\ split_content content 900 = Some (chunk0 :: others)
        /\ VariantA.create_presentation rt title topics w
           = (Ok (VariantA.file_name_of title), w')
        /\ lookup_file (VariantA.file_name_of title) (files w') = Some deck
        /\ deck = VariantA.title_slide title
                    :: flat_map (fun topic => VariantA.topic_slides topic chunk0 others)
                                topics
        /\ one_title_then_content deck
        /\ length deck = 1 + length topics * length (chunk0 :: others))
  /\ (exists deck,
        VariantB.generate_ppt slides w = (Ok deck, w)
        /\ length deck = length slides
        /\ Forall (fun s => is_content_slide s = true) deck
        /\ ~ one_title_then_content deck).
Proof.
  cbv zeta.
  assert (H : forall slide,
             In slide (remove_double_asteris (split_into_slides bold_blob)) ->
             process_slide_title slide <> None).
  { intros slide Hin; vm_compute in Hin.
    destruct Hin as [<-|[<-|[]]]; vm_compute; discriminate. }
  split; [exact H|].
  exact (deck_shape_by_variant (rt_answer bold_blob) (str "Gen AI")
           [str "A"; str "B"]
           (remove_double_asteris (split_into_slides bold_blob))
           empty_world H).
Defined.

(** C2 as stated fails for App1.py: on an answer with two well-formed
    slides, for the topics "A" and "B", the deck offered for download is two
    content slides, with no title slide in front. *)
Lemma variant_B_deck_without_title_slide :
  let run := VariantB.on_submit (rt_answer bold_blob) (str "Gen AI")
               (lines ["A"; "B"]%string) empty_world in
  let deck := [VariantB.content_slide (str "1") (str "Intro") (str "a, b");
               VariantB.content_slide (str "2") (str "More") (str "c, d, The e")] in
  fst run = Ok tt
  /\ last (screen (snd run)) (st_info [])
     = st_download_button (str "Download PowerPoint Presentation") deck
         (VariantB.download_name (str "Gen AI")) pptx_mime
  /\ ~ one_title_then_content deck.
Proof.
  cbv zeta; split; [vm_compute; reflexivity|].
  split; [vm_compute; reflexivity|].
  intros [t [rest [E [Ht _]]]].
  injection E as <- _; discriminate Ht.
Qed.

(* ================================================================== *)
(** ** Errors *)
(* ================================================================== *)

(** C1 at a run without the credential.  App1.py shows the error string
    and offers nothing ([FactsB.on_submit_no_key]); App.py goes on with the
    error string as if it were the text: it writes "Gen_AI.pptx", a title
    slide and a slide for the topic whose body is the error string, and
    reports success. *)
Theorem missing_key_deck_written_by_variant_A :
  let run := VariantA.on_submit rt_no_key (str "Gen AI") (str "A") empty_world in
  let deck := [VariantA.title_slide (str "Gen AI");
               VariantA.first_slide (str "A") (str "Error: Missing API key.")] in
  fst run = Ok tt
  /\ requests (snd run) = []
  /\ files (snd run) = [(str "Gen_AI.pptx", deck)]
  /\ screen (snd run)
     = [st_info (str "Generating your presentation. Please wait...");
        st_error (str "Gemini API key not found. Please set it in the .env file.");
        st_write (str "### A");
        st_write (str "Error: Missing API key.");
        st_success (str "Presentation 'Gen_AI.pptx' created successfully!");
        st_download_button (str "Download Presentation") deck
          (str "Gen_AI.pptx") pptx_mime]
  /\ VariantB.on_submit rt_no_key (str "Gen AI") (str "A") empty_world
     = (Ok tt,
        mkWorld []
          [st_info (str "Generating your presentation. Please wait...");
           st_error (str "Gemini API key not found. Please set it in the .env file.");
           st_error (str "Error: Missing API key.")]
          []).
Proof.
  cbv zeta; repeat split; vm_compute; reflexivity.
Qed.

(** Without the credential App.py writes the file whatever the title and
    the topics. *)
Lemma create_presentation_A_no_key (rt : Runtime) (title : pystr)
    (topics : list pystr) (w : World) :
  key_missing rt = true ->
  exists w',
    VariantA.create_presentation rt title topics w
    = (Ok (VariantA.file_name_of title), w')
    /\ files w'
       = (VariantA.file_name_of title,
          VariantA.title_slide title
            :: map (fun topic =>
                      VariantA.first_slide topic (str "Error: Missing API key."))
                   topics)
           :: files w.
Proof.
  intros Hk.
  unfold VariantA.create_presentation.
  unfold bind at 1; rewrite (FactsA.generate_content_no_key _ _ _ Hk).
  unfold bind at 1.
  rewrite (FactsA.topics_loop (str "Error: Missing API key.")
             (str "Error: Missing API key.") [] eq_refl).
  eexists; split; [reflexivity|].
  cbn [files app]; f_equal.
Qed.

(** C3 at an answer whose second heading lacks the space after the colon.
    The parser returns [None] for that fragment, and [generate_ppt] raises
    on it: the run ends in [TypeError] after the success message, nothing
    is offered for download, and the slide of the first fragment, which
    parses, is lost with the rest. *)
Theorem unparsed_fragment_raises :
  let fragments := remove_double_asteris (split_into_slides broken_blob) in
  let run := VariantB.on_submit (rt_answer broken_blob) (str "Gen AI") (str "A")
               empty_world in
  fragments = [lines ["Slide 1: Intro"; "* a"]%string;
               lines ["Slide 2:More"; "*"]%string]
  /\ map process_slide_title fragments
     = [Some (str "1", str "Intro", str "a"); None]
  /\ VariantB.generate_ppt fragments empty_world = (Raised TypeError, empty_world)
  /\ fst run = Raised TypeError
  /\ screen (snd run)
     = [st_info (str "Generating your presentation. Please wait...");
        st_text_area (str "raw content") broken_blob;
        st_success (str "Presentation content generated successfully!")].
Proof.
  cbv zeta; repeat split; vm_compute; reflexivity.
Qed.

(** C10. In App1.py, a text that does not start with "Error" and holds no
    marker gives no fragment; the deck built has no slide, the screen shows
    the success message and the download button for that empty deck, and no
    error. *)
Theorem marker_free_text_empty_deck (rt : Runtime)
    (title topics_input text : pystr) (w : World) :
  parse_topics topics_input <> [] ->
  key_missing rt = false ->
  model_generate rt (length (requests w))
    (VariantB.prompt title (parse_topics topics_input)) = inl text ->
  startswith (str "Error") text = false ->
  marker_positions text = [] ->
  split_into_slides text = []
  /\ VariantB.generate_ppt [] w = (Ok [], w)
  /\ VariantB.on_submit rt title topics_input w
     = (Ok tt,
        mkWorld
          (requests w ++ [VariantB.prompt title (parse_topics topics_input)])
          (screen w
             ++ [st_info (str "Generating your presentation. Please wait...");
                 st_text_area (str "raw content") text;
                 st_success (str "Presentation content generated successfully!");
                 st_download_button (str "Download PowerPoint Presentation") []
                   (VariantB.download_name title) pptx_mime])
          (files w))
  /\ existsb is_st_error
       (skipn (length (screen w))
          (screen (snd (VariantB.on_submit rt title topics_input w))))
     = false.
Proof.
  intros Ht Hk Hm He Hp.
  assert (Hs : split_into_slides text = []).
  { unfold split_into_slides; rewrite findall_spans, Hp; reflexivity. }
  split; [exact Hs|]; split; [reflexivity|].
  match goal with
  | |- ?run = ?res /\ _ =>
      assert (E : run = res);
      [| split; [exact E|]; rewrite E; cbn [snd screen];
         rewrite skipn_app, skipn_all, Nat.sub_diag; reflexivity]
  end.
  unfold VariantB.on_submit.
  destruct (parse_topics topics_input) as [|t ts]; [contradiction|].
  unfold bind at 1; unfold emit at 1.
  unfold bind at 1.
  unfold VariantB.create_presentation, VariantB.generate_content.
  rewrite Hk.
  unfold bind at 1; unfold bind at 1; unfold ask_model.
  cbn [requests screen files]; rewrite Hm.
  unfold ret at 1; rewrite He, Hs.
  unfold bind, emit, ret, remove_double_asteris, VariantB.deliver,
    VariantB.iterate, VariantB.generate_ppt, VariantB.show_slides;
    cbn [map requests screen files VariantB.add_slides].
  unfold bind, emit, ret; cbn [requests screen files].
  rewrite <- !app_assoc; reflexivity.
Qed.

Lemma marker_free_text_empty_deck_witness :
  let rt := rt_answer (str "Sorry, no slides today.") in
  let title := str "Gen AI" in
  let topics_input := str "A" in
  let text := str "Sorry, no slides today." in
  let w := empty_world in
  parse_topics topics_input <> []
  /\ key_missing rt = false
  /\ model_generate rt (length (requests w))
       (VariantB.prompt title (parse_topics topics_input)) = inl text
  /\ startswith (str "Error") text = false
  /\ marker_positions text = []
  /\ split_into_slides text = []
  /\ VariantB.generate_ppt [] w = (Ok [], w)
  /\ VariantB.on_submit rt title topics_input w
     = (Ok tt,
        mkWorld
          (requests w ++ [VariantB.prompt title (parse_topics topics_input)])
          (screen w
             ++ [st_info (str "Generating your presentation. Please wait...");
                 st_text_area (str "raw content") text;
                 st_success (str "Presentation content generated successfully!");
                 st_download_button (str "Download PowerPoint Presentation") []
                   (VariantB.download_name title) pptx_mime])
          (files w))
  /\ existsb is_st_error
       (skipn (length (screen w))
          (screen (snd (VariantB.on_submit rt title topics_input w))))
     = false.
Proof.
  cbv zeta.
  split; [vm_compute; discriminate|].
  split; [reflexivity|].
  split; [reflexivity|].
  split; [reflexivity|].
  split; [reflexivity|].
  apply (marker_free_text_empty_deck
           (rt_answer (str "Sorry, no slides today.")) (str "Gen AI") (str "A")
           (str "Sorry, no slides today.") empty_world);
    try reflexivity.
  vm_compute; discriminate.
Defined.

(* ================================================================== *)
(** ** More on [strip] *)
(* ================================================================== *)

Section StripMore.

Variable p : ascii -> bool.

Lemma lstrip_by_all (s : pystr) :
  Forall (fun c => p c = true) s -> lstrip_by p s = [].
Proof.
  induction 1 as [|c r Hc _ IH]; simpl; [reflexivity|].
  rewrite Hc; exact IH.
Qed.

Lemma lstrip_by_pad (lead s : pystr) :
  Forall (fun c => p c = true) lead ->
  lstrip_by p (lead ++ s) = lstrip_by p s.
Proof.
  induction 1 as [|c r Hc _ IH]; simpl; [reflexivity|].
  rewrite Hc; exact IH.
Qed.

Lemma lstrip_by_none (s : pystr) :
  Forall (fun c => p c = false) s -> lstrip_by p s = s.
Proof.
  destruct 1 as [|c r Hc _]; simpl; [reflexivity|].
  rewrite Hc; reflexivity.
Qed.

Lemma rstrip_by_keep (s : pystr) (d : ascii) :
  p d = false -> rstrip_by p (s ++ [d]) = s ++ [d].
Proof.
  intros Hd; unfold rstrip_by.
  rewrite rev_app_distr; cbn [rev app lstrip_by]; rewrite Hd.
  cbn [rev]; rewrite rev_involutive; reflexivity.
Qed.

Lemma rstrip_by_pad (s trail : pystr) :
  Forall (fun c => p c = true) trail ->
  rstrip_by p (s ++ trail) = rstrip_by p s.
Proof.
  intros H; unfold rstrip_by.
  rewrite rev_app_distr, lstrip_by_pad; [reflexivity|].
  apply Forall_rev; exact H.
Qed.

(** A text that starts and ends with characters [strip] keeps comes out of
    [strip] as it is, whatever padding surrounds it. *)
Lemma strip_by_padded (lead body trail : pystr) (c d : ascii) (mid : pystr) :
  Forall (fun x => p x = true) lead ->
  Forall (fun x => p x = true) trail ->
  body = c :: mid ->
  (exists front, body = front ++ [d]) ->
  p c = false -> p d = false ->
  strip_by p (lead ++ body ++ trail) = body.
Proof.
  intros Hl Ht Eb [front Ef] Hc Hd; unfold strip_by.
  rewrite lstrip_by_pad by exact Hl.
  rewrite Eb at 1; cbn [app lstrip_by]; rewrite Hc.
  change (c :: mid ++ trail) with ((c :: mid) ++ trail); rewrite <- Eb.
  rewrite rstrip_by_pad by exact Ht.
  rewrite Ef; apply rstrip_by_keep; exact Hd.
Qed.

Lemma lstrip_by_firstn (s : pystr) (i : nat) :
  lstrip_by p s = s -> lstrip_by p (firstn i s) = firstn i s.
Proof.
  destruct s as [|c r]; [rewrite firstn_nil; reflexivity|].
  destruct i as [|i]; [reflexivity|].
  cbn [lstrip_by firstn]; destruct (p c) eqn:E; [|reflexivity].
  intros H; exfalso.
  pose proof (lstrip_by_length p r) as L.
  rewrite H in L; simpl in L; lia.
Qed.

Lemma lstrip_by_rstrip (t : pystr) :
  lstrip_by p t = t -> lstrip_by p (rstrip_by p t) = rstrip_by p t.
Proof.
  intros Ht; destruct t as [|c t']; [reflexivity|].
  simpl in Ht; destruct (p c) eqn:Hc.
  - exfalso.
    pose proof (lstrip_by_length p t') as L.
    rewrite Ht in L; simpl in L; lia.
  - unfold rstrip_by; simpl rev.
    destruct (lstrip_by_app_keep p (rev t') c Hc) as [u Hu].
    rewrite Hu, rev_app_distr; simpl; rewrite Hc; reflexivity.
Qed.

Lemma lstrip_by_strip (s : pystr) :
  lstrip_by p (strip_by p s) = strip_by p s.
Proof. unfold strip_by; apply lstrip_by_rstrip, lstrip_by_idem. Qed.

Lemma strip_by_none (s : pystr) :
  Forall (fun c => p c = false) s -> strip_by p s = s.
Proof.
  intros H; unfold strip_by, rstrip_by.
  rewrite (lstrip_by_none s H).
  rewrite lstrip_by_none by (apply Forall_rev; exact H).
  apply rev_involutive.
Qed.

Lemma strip_by_all (s : pystr) :
  Forall (fun c => p c = true) s -> strip_by p s = [].
Proof. intros H; unfold strip_by; rewrite lstrip_by_all by exact H; reflexivity. Qed.

Lemma strip_by_nil_all (s : pystr) :
  strip_by p s = [] -> Forall (fun c => p c = true) s.
Proof.
  intros H; destruct (strip_by_split p s) as [lead [trail [E [Hl Ht]]]].
  rewrite H in E; rewrite E; apply Forall_app; split; assumption.
Qed.

End StripMore.

Lemma visible_all_space (s : pystr) : all_space s -> visible s = [].
Proof.
  induction 1 as [|c r Hc _ IH]; [reflexivity|].
  unfold visible in *; cbn [filter]; rewrite Hc; exact IH.
Qed.

Lemma visible_app (a b : pystr) : visible (a ++ b) = visible a ++ visible b.
Proof. apply filter_app. Qed.

Lemma rfind_char_none (c : ascii) (s : pystr) :
  ~ In c s -> rfind_char c s = None.
Proof.
  induction s as [|x r IH]; intros H; [reflexivity|].
  cbn [rfind_char]; rewrite IH by (intros Hin; apply H; right; exact Hin).
  destruct (Ascii.eqb_spec x c) as [->|_]; [|reflexivity].
  exfalso; apply H; left; reflexivity.
Qed.

(* ================================================================== *)
(** ** The fixed-length segmenter: what the chunks look like *)
(* ================================================================== *)

Lemma splits_visible (max_length : nat) (content : pystr)
    (chunks : list pystr) :
  splits max_length content chunks ->
  visible (concat chunks) = visible content.
Proof.
  induction 1 as [content Hle | content chunk rest chunks Hlt Hs _ IH].
  - cbn [concat]; rewrite app_nil_r; reflexivity.
  - destruct (split_step_pieces _ _ _ _ Hs) as [lead [trail [E [Hl Ht]]]].
    cbn [concat]; rewrite E.
    rewrite !visible_app, IH.
    rewrite (visible_all_space lead Hl), (visible_all_space trail Ht).
    rewrite app_nil_r; reflexivity.
Qed.

(** X1. For every text and every limit of at least 1, the characters of
    the chunks that are not whitespace are those of the text, in the same
    order: cutting loses or moves nothing but whitespace. *)
Theorem split_content_keeps_visible (content : pystr) (max_length : nat) :
  1 <= max_length ->
  exists chunks,
    split_content content max_length = Some chunks
    /\ visible (concat chunks) = visible content.
Proof.
  intros Hm.
  destruct (split_content_total content max_length Hm) as [chunks [Hs Hsp]].
  exists chunks; split; [exact Hs | exact (splits_visible _ _ _ Hsp)].
Qed.

Lemma split_content_keeps_visible_witness :
  1 <= 4
  /\ exists chunks,
       split_content (str " ab cde  fghij k ") 4 = Some chunks
       /\ visible (concat chunks) = visible (str " ab cde  fghij k ").
Proof.
  split; [lia | apply (split_content_keeps_visible (str " ab cde  fghij k ") 4); lia].
Defined.

Lemma split_step_stripped (content chunk rest : pystr) (max_length : nat) :
  split_step content max_length = (chunk, rest) -> strip rest = rest.
Proof.
  unfold split_step; intros H; injection H as _ <-; apply strip_idem.
Qed.

Lemma strip_fixed_lstrip (s : pystr) : strip s = s -> lstrip s = s.
Proof. intros H; rewrite <- H; apply lstrip_by_strip. Qed.

Lemma splits_lstripped (max_length : nat) (content : pystr)
    (chunks : list pystr) :
  splits max_length content chunks ->
  strip content = content ->
  Forall (fun chunk => lstrip chunk = chunk) chunks
  /\ strip (last chunks []) = last chunks [].
Proof.
  induction 1 as [content Hle | content chunk rest chunks Hlt Hs Hr IH];
    intros Hc.
  - split; [|exact Hc].
    constructor; [apply strip_fixed_lstrip; exact Hc | constructor].
  - destruct (IH (split_step_stripped _ _ _ _ Hs)) as [Hf Hl].
    split.
    + constructor; [|exact Hf].
      unfold split_step in Hs; injection Hs as <- _.
      apply lstrip_by_firstn, strip_fixed_lstrip; exact Hc.
    + destruct chunks as [|c cs]; [exfalso; exact (splits_nonempty _ _ _ Hr eq_refl)|].
      exact Hl.
Qed.

(** X2. For every text and every limit of at least 1, no chunk after the
    first starts with whitespace, and when the text was cut the last chunk
    has no whitespace at either end. *)
Theorem split_content_later_chunks_stripped (content : pystr)
    (max_length : nat) :
  1 <= max_length ->
  exists chunk0 others,
    split_content content max_length = Some (chunk0 :: others)
    /\ Forall (fun chunk => lstrip chunk = chunk) others
    /\ (others <> [] -> strip (last others []) = last others []).
Proof.
  intros Hm.
  destruct (split_content_first_chunk content max_length Hm)
    as [chunk0 [others [Hs Hsp]]].
  exists chunk0, others; split; [exact Hs|].
  inversion Hsp as [c Hle | c chunk rest chunks Hlt Hst Hr]; subst.
  - split; [constructor | intros H; contradiction].
  - destruct (splits_lstripped _ _ _ Hr (split_step_stripped _ _ _ _ Hst))
      as [Hf Hl].
    split; [exact Hf | intros _; exact Hl].
Qed.

Lemma split_content_later_chunks_stripped_witness :
  1 <= 4
  /\ exists chunk0 others,
       split_content (str "  ab   cde  fghij k  ") 4 = Some (chunk0 :: others)
       /\ Forall (fun chunk => lstrip chunk = chunk) others
       /\ (others <> [] -> strip (last others []) = last others []).
Proof.
  split; [lia|].
  apply (split_content_later_chunks_stripped (str "  ab   cde  fghij k  ") 4); lia.
Defined.

Lemma splits_no_space (max_length : nat) (content : pystr)
    (chunks : list pystr) :
  splits max_length content chunks ->
  Forall (fun c => isspace c = false) content ->
  concat chunks = content
  /\ Forall (fun chunk => length chunk = max_length) (removelast chunks).
Proof.
  induction 1 as [content Hle | content chunk rest chunks Hlt Hs Hr IH];
    intros Hn.
  - split; [apply app_nil_r | constructor].
  - assert (Hi : split_index content max_length = max_length).
    { unfold split_index, rfind; rewrite rfind_char_none; [reflexivity|].
      intros Hin.
      assert (Hin' : In space content).
      { rewrite <- (firstn_skipn max_length content).
        apply in_or_app; left; exact Hin. }
      rewrite Forall_forall in Hn; specialize (Hn _ Hin'); discriminate Hn. }
    unfold split_step in Hs; rewrite Hi in Hs; injection Hs as <- <-.
    assert (Hk : Forall (fun c => isspace c = false) (skipn max_length content)).
    { rewrite <- (firstn_skipn max_length content) in Hn.
      apply Forall_app in Hn; exact (proj2 Hn). }
    unfold strip in *; rewrite (strip_by_none isspace _ Hk) in *.
    destruct (IH Hk) as [Ec Hf]; split.
    + cbn [concat]; rewrite Ec; apply firstn_skipn.
    + destruct chunks as [|c cs]; [exfalso; exact (splits_nonempty _ _ _ Hr eq_refl)|].
      change (removelast (firstn max_length content :: c :: cs))
        with (firstn max_length content :: removelast (c :: cs)).
      constructor; [|exact Hf].
      rewrite length_firstn; lia.
Qed.

(** X3. A text without any whitespace is cut into blocks of exactly the
    limit, the last one holding what is left: the chunks concatenate to the
    text and every chunk but the last has the length of the limit. *)
Theorem split_content_hard_cuts (content : pystr) (max_length : nat) :
  1 <= max_length ->
  Forall (fun c => isspace c = false) content ->
  exists chunks,
    split_content content max_length = Some chunks
    /\ concat chunks = content
    /\ Forall (fun chunk => length chunk = max_length) (removelast chunks).
Proof.
  intros Hm Hn.
  destruct (split_content_total content max_length Hm) as [chunks [Hs Hsp]].
  exists chunks; split; [exact Hs | exact (splits_no_space _ _ _ Hsp Hn)].
Qed.

Lemma split_content_hard_cuts_witness :
  1 <= 3
  /\ Forall (fun c => isspace c = false) (str "abcdefgh")
  /\ exists chunks,
       split_content (str "abcdefgh") 3 = Some chunks
       /\ concat chunks = str "abcdefgh"
       /\ Forall (fun chunk => length chunk = 3) (removelast chunks).
Proof.
  assert (H : Forall (fun c => isspace c = false) (str "abcdefgh")).
  { repeat constructor. }
  split; [lia|]; split; [exact H|].
  apply (split_content_hard_cuts (str "abcdefgh") 3); [lia | exact H].
Defined.

(** X4. [split_content] returns the text as its only chunk, untouched,
    exactly when the text is not longer than the limit. *)
Theorem split_content_single_chunk (content : pystr) (max_length : nat) :
  length content <= max_length <->
  split_content content max_length = Some [content].
Proof.
  split.
  - intros H; apply split_loop_complete; constructor; exact H.
  - intros H; apply split_content_splits in H.
    inversion H as [c Hle | c chunk rest chunks Hlt Hs Hr]; subst;
      [exact Hle|].
    exfalso; exact (splits_nonempty _ _ _ Hr eq_refl).
Qed.

(* ================================================================== *)
(** ** The marker segmenter: what the fragments look like *)
(* ================================================================== *)

Lemma remove_double_star_keeps_head (d : ascii) (r : pystr) :
  d <> star -> exists t, remove_double_star (d :: r) = d :: t.
Proof.
  intros Hd; destruct r as [|e r']; [exists []; reflexivity|].
  cbn [remove_double_star].
  destruct (Ascii.eqb_spec d star) as [E|_]; [contradiction|].
  cbn [andb]; eexists; reflexivity.
Qed.

Lemma remove_double_star_cons2 (c d : ascii) (r : pystr) :
  remove_double_star (c :: d :: r)
  = if Ascii.eqb c star && Ascii.eqb d star then remove_double_star r
    else c :: remove_double_star (d :: r).
Proof. reflexivity. Qed.

Lemma contains_cons (p : pystr) (c : ascii) (s : pystr) :
  contains p (c :: s) = startswith p (c :: s) || contains p s.
Proof. reflexivity. Qed.

Lemma remove_double_star_clean (n : nat) :
  forall s, length s <= n ->
            contains (str "**") (remove_double_star s) = false.
Proof.
  induction n as [n IH] using lt_wf_ind; intros s Hn.
  destruct s as [|c [|d r']]; [reflexivity | |].
  - cbn [remove_double_star]; rewrite contains_cons.
    change (str "**") with [star; star]; cbn [startswith contains].
    destruct (Ascii.eqb star c); reflexivity.
  - rewrite remove_double_star_cons2.
    destruct (Ascii.eqb_spec c star) as [Ec|Ec],
             (Ascii.eqb_spec d star) as [Ed|Ed]; cbn [andb];
      try (apply (IH (length r')); [simpl in Hn; lia | lia]);
      rewrite contains_cons;
      rewrite (IH (length (d :: r'))) by (simpl in *; lia);
      rewrite orb_false_r;
      change (str "**") with [star; star]; cbn [startswith].
    + destruct (remove_double_star_keeps_head d r' Ed) as [t ->].
      cbn [startswith].
      destruct (Ascii.eqb_spec star d) as [E|_]; [congruence|].
      apply andb_false_r.
    + destruct (Ascii.eqb_spec star c) as [E|_]; [congruence | reflexivity].
    + destruct (Ascii.eqb_spec star c) as [E|_]; [congruence | reflexivity].
Qed.

(** X5. Whatever the strings, none of those [remove_double_asteris]
    returns holds "**" any more, so applying it twice changes nothing. *)
Theorem remove_double_asteris_clean (input_list : list pystr) :
  Forall (fun item => contains (str "**") item = false)
         (remove_double_asteris input_list)
  /\ remove_double_asteris (remove_double_asteris input_list)
     = remove_double_asteris input_list.
Proof.
  assert (H : Forall (fun item => contains (str "**") item = false)
                     (remove_double_asteris input_list)).
  { unfold remove_double_asteris; apply Forall_map, Forall_forall.
    intros x _; apply (remove_double_star_clean (length x)); lia. }
  split; [exact H|].
  unfold remove_double_asteris in *.
  induction (map remove_double_star input_list) as [|x l IH]; [reflexivity|].
  inversion H as [|? ? Hx Hl]; subst.
  cbn [map]; rewrite (remove_double_star_id x Hx), (IH Hl); reflexivity.
Qed.

(** The characters a match of the marker pattern starts with. *)
Lemma marker_at_firstn (s : pystr) (n : nat) :
  marker_at s = Some n ->
  exists d ds, firstn n s = str "Slide " ++ (d :: ds) ++ [":"%char].
Proof.
  intros H; destruct (marker_at_inv _ _ H) as [ds [rest [Es [_ En]]]].
  destruct ds as [|d ds]; [rewrite Es in H; discriminate H|].
  exists d, ds; rewrite Es, En.
  change (":"%char :: rest) with ([":"%char] ++ rest).
  rewrite !app_assoc, firstn_app.
  rewrite firstn_all2 by (rewrite !length_app; simpl; lia).
  replace (6 + length (d :: ds) + 1
           - length ((str "Slide " ++ d :: ds) ++ [":"%char])) with 0
    by (rewrite !length_app; simpl; lia).
  cbn [firstn]; rewrite app_nil_r; reflexivity.
Qed.

Lemma findall_loop_heads (fuel : nat) :
  forall s,
    Forall (fun m => exists d rest, m = str "Slide " ++ d :: rest
                                    /\ 8 <= length m)
           (findall_loop fuel s).
Proof.
  induction fuel as [|fuel IH]; intros s; [constructor|].
  destruct s as [|c r]; [constructor|].
  rewrite findall_loop_S.
  destruct (marker_at (c :: r)) as [n|] eqn:Em; [|apply IH].
  destruct (lazy_any (skipn n (c :: r))) as [body rest] eqn:El.
  constructor; [|apply IH].
  destruct (marker_at_firstn _ _ Em) as [d [ds E]].
  rewrite E; exists d, ((ds ++ [":"%char]) ++ body); split.
  - rewrite <- !app_assoc; reflexivity.
  - rewrite !length_app; simpl; lia.
Qed.

Lemma drop_last2_head (d : ascii) (rest : pystr) :
  8 <= length (str "Slide " ++ d :: rest) ->
  exists t, drop_last2 (str "Slide " ++ d :: rest) = str "Slide " ++ t.
Proof.
  intros H; unfold drop_last2.
  rewrite firstn_app, firstn_all2 by (simpl in *; lia).
  eexists; reflexivity.
Qed.

Lemma remove_double_star_slide (t : pystr) :
  startswith (str "Slide ") (remove_double_star (wrap_bold (str "Slide " ++ t)))
  = true.
Proof. destruct t; reflexivity. Qed.

(** X6. Every fragment [split_into_slides] returns starts with "**Slide "
    (the two characters cut off never reach into "Slide "), and once
    cleaned by [remove_double_asteris] it starts with "Slide ". *)
Theorem fragments_start_with_slide (content : pystr) :
  Forall (fun fragment => startswith (str "**Slide ") fragment = true)
         (split_into_slides content)
  /\ Forall (fun fragment => startswith (str "Slide ") fragment = true)
            (remove_double_asteris (split_into_slides content)).
Proof.
  unfold remove_double_asteris, split_into_slides, trim_match.
  rewrite map_map.
  pose proof (findall_loop_heads (length content) content) as H.
  fold (findall content) in H.
  split; apply Forall_map; (eapply Forall_impl; [|exact H]);
    intros m [d [rest [-> Hl]]];
    destruct (drop_last2_head d rest Hl) as [t ->].
  - reflexivity.
  - apply remove_double_star_slide.
Qed.

Lemma findall_cons_other (c : ascii) (s : pystr) :
  c <> "S"%char -> findall (c :: s) = findall s.
Proof.
  intros Hc; unfold findall; cbn [length]; rewrite findall_loop_S.
  rewrite marker_at_head; [reflexivity|].
  destruct (Ascii.eqb_spec "S" c) as [E|_]; [congruence | reflexivity].
Qed.

(** X7. Text in front of the answer that holds no capital S is dropped: it
    changes none of the fragments. *)
Theorem split_into_slides_ignores_preamble (preamble content : pystr) :
  ~ In "S"%char preamble ->
  split_into_slides (preamble ++ content) = split_into_slides content.
Proof.
  intros H; unfold split_into_slides; f_equal.
  induction preamble as [|c r IH]; [reflexivity|].
  cbn [app]; rewrite findall_cons_other.
  - apply IH; intros Hin; apply H; right; exact Hin.
  - intros ->; apply H; left; reflexivity.
Qed.

Lemma split_into_slides_ignores_preamble_witness :
  ~ In "S"%char (lines ["Here are your slides:"; ""; "**"]%string)
  /\ split_into_slides (lines ["Here are your slides:"; ""; "**"]%string ++ bold_blob)
     = split_into_slides bold_blob.
Proof.
  assert (H : ~ In "S"%char (lines ["Here are your slides:"; ""; "**"]%string)).
  { vm_compute; intuition discriminate. }
  split; [exact H|].
  apply (split_into_slides_ignores_preamble _ bold_blob H).
Defined.

(* ================================================================== *)
(** ** The fragment parser on well-formed fragments *)
(* ================================================================== *)

Lemma split_first_line_app (part0 part1 : pystr) :
  ~ In newline part0 ->
  split_first_line (part0 ++ newline :: part1) = inr (part0, part1).
Proof.
  induction part0 as [|c r IH]; intros H.
  - cbn [app split_first_line]; rewrite Ascii.eqb_refl; reflexivity.
  - cbn [app split_first_line].
    destruct (Ascii.eqb_spec c newline) as [E|_].
    + exfalso; apply H; left; exact E.
    + rewrite IH; [reflexivity|].
      intros Hin; apply H; right; exact Hin.
Qed.

Lemma digits_len_app (ds rest : pystr) (c : ascii) :
  Forall (fun x => isdigit x = true) ds ->
  isdigit c = false ->
  digits_len (ds ++ c :: rest) = length ds.
Proof.
  intros Hd Hc; induction Hd as [|x ds Hx _ IH]; cbn [app digits_len length].
  - rewrite Hc; reflexivity.
  - rewrite Hx, IH; reflexivity.
Qed.

Lemma upto_newline_id (s : pystr) : ~ In newline s -> upto_newline s = s.
Proof.
  induction s as [|c r IH]; intros H; [reflexivity|].
  cbn [upto_newline].
  destruct (Ascii.eqb_spec c newline) as [E|_].
  - exfalso; apply H; left; exact E.
  - rewrite IH; [reflexivity|].
    intros Hin; apply H; right; exact Hin.
Qed.

Lemma blank_all_space (s : pystr) : blank s -> all_space s.
Proof. intros H; eapply Forall_impl; [|exact H]; intros c [Hc _]; exact Hc. Qed.

Lemma blank_no_newline (s : pystr) : blank s -> ~ In newline s.
Proof.
  intros H Hin; unfold blank in H; rewrite Forall_forall in H.
  destruct (H _ Hin) as [_ Hn]; apply Hn; reflexivity.
Qed.

Lemma digits_no_newline (ds : pystr) :
  Forall (fun x => isdigit x = true) ds -> ~ In newline ds.
Proof.
  intros H Hin; rewrite Forall_forall in H.
  specialize (H _ Hin); discriminate H.
Qed.

(** The header of a well-formed fragment is what [header_match] expects. *)
Lemma header_match_well_formed (no rest : pystr) :
  no <> [] ->
  Forall (fun x => isdigit x = true) no ->
  rest <> [] ->
  ~ In newline rest ->
  header_match (str "Slide " ++ no ++ str ": " ++ rest) = Some (no, rest).
Proof.
  intros Hne Hd Hr Hn; unfold header_match.
  rewrite (proj2 (strip_prefix_spec (str "Slide ") _ (no ++ str ": " ++ rest))
             eq_refl).
  change (str ": " ++ rest) with (":"%char :: " "%char :: rest).
  rewrite (digits_len_app no (" "%char :: rest) ":" Hd eq_refl).
  destruct no as [|n0 no']; [contradiction|].
  cbn [length].
  change (S (length no')) with (length (n0 :: no')).
  rewrite skipn_app, skipn_all, Nat.sub_diag.
  rewrite firstn_app, firstn_all, Nat.sub_diag.
  cbn [skipn firstn]; rewrite app_nil_r.
  change ([] ++ ":"%char :: " "%char :: rest) with (str ": " ++ rest).
  change (":"%char :: " "%char :: rest) with (str ": " ++ rest).
  rewrite (proj2 (strip_prefix_spec (str ": ") _ rest) eq_refl).
  rewrite (upto_newline_id rest Hn).
  destruct rest; [contradiction | reflexivity].
Qed.

(** X8. A fragment made of "Slide ", a number, ": ", a heading, a newline
    and the points, with any blanks in front of the header, in front of the
    heading and behind it, is parsed into that number, that heading and the
    points joined by ", ". *)
Theorem process_slide_title_well_formed
    (lead no pad heading trail part1 : pystr) :
  blank lead -> blank pad -> blank trail ->
  no <> [] ->
  Forall (fun x => isdigit x = true) no ->
  heading <> [] ->
  ~ In newline heading ->
  isspace (hd space heading) = false ->
  isspace (last heading space) = false ->
  process_slide_title
    (lead ++ (str "Slide " ++ no ++ str ": " ++ pad ++ heading) ++ trail
       ++ newline :: part1)
  = Some (no, heading, points_string_of part1).
Proof.
  intros Hlead Hpad Htrail Hne Hd Hh Hhn Hh0 Hhl.
  set (header := str "Slide " ++ no ++ str ": " ++ pad ++ heading).
  assert (Hlast : heading = removelast heading ++ [last heading space])
    by (apply app_removelast_last; exact Hh).
  assert (Hhead : exists mid, heading = hd space heading :: mid).
  { destruct heading as [|h mid]; [contradiction | exists mid; reflexivity]. }
  destruct Hhead as [mid Hmid].
  assert (Hn0 : ~ In newline (lead ++ header ++ trail)).
  { unfold header; intros Hin.
    repeat (apply in_app_or in Hin; destruct Hin as [Hin|Hin]);
      try (exact (blank_no_newline _ Hlead Hin));
      try (exact (blank_no_newline _ Hpad Hin));
      try (exact (blank_no_newline _ Htrail Hin));
      try (exact (digits_no_newline _ Hd Hin));
      try (exact (Hhn Hin));
      vm_compute in Hin; intuition discriminate. }
  unfold process_slide_title.
  replace (lead ++ header ++ trail ++ newline :: part1)
    with ((lead ++ header ++ trail) ++ newline :: part1)
    by (rewrite <- !app_assoc; reflexivity).
  rewrite (split_first_line_app _ part1 Hn0).
  assert (Es : strip (lead ++ header ++ trail) = header).
  { apply (strip_by_padded isspace lead header trail "S" (last heading space)
             (str "lide " ++ no ++ str ": " ++ pad ++ heading)).
    - apply blank_all_space; exact Hlead.
    - apply blank_all_space; exact Htrail.
    - reflexivity.
    - exists (str "Slide " ++ no ++ str ": " ++ pad ++ removelast heading).
      unfold header; rewrite Hlast at 1.
      rewrite <- !app_assoc; reflexivity.
    - reflexivity.
    - exact Hhl. }
  rewrite Es; unfold header.
  rewrite (header_match_well_formed no (pad ++ heading) Hne Hd).
  - assert (Et : strip (pad ++ heading) = heading).
    { rewrite <- (app_nil_r heading) at 1.
      apply (strip_by_padded isspace pad heading [] (hd space heading)
               (last heading space) mid).
      - apply blank_all_space; exact Hpad.
      - constructor.
      - exact Hmid.
      - exists (removelast heading); exact Hlast.
      - exact Hh0.
      - exact Hhl. }
    rewrite Et; reflexivity.
  - intros E; apply app_eq_nil in E; destruct E as [_ E]; contradiction.
  - intros Hin; apply in_app_or in Hin; destruct Hin as [Hin|Hin];
      [exact (blank_no_newline _ Hpad Hin) | exact (Hhn Hin)].
Qed.

Lemma process_slide_title_well_formed_witness :
  let lead := str "" in
  let no := str "12" in
  let pad := str " " in
  let heading := str "Intro to AI" in
  let trail := str "  " in
  let part1 := lines ["* a"; ""; "*  b "]%string in
  blank lead /\ blank pad /\ blank trail
  /\ no <> []
  /\ Forall (fun x => isdigit x = true) no
  /\ heading <> []
  /\ ~ In newline heading
  /\ isspace (hd space heading) = false
  /\ isspace (last heading space) = false
  /\ process_slide_title
       (lead ++ (str "Slide " ++ no ++ str ": " ++ pad ++ heading) ++ trail
          ++ newline :: part1)
     = Some (no, heading, str "a, b").
Proof.
  cbv zeta.
  assert (B0 : blank (str "")) by constructor.
  assert (B1 : blank (str " ")) by (repeat constructor; discriminate).
  assert (B2 : blank (str "  ")) by (repeat constructor; discriminate).
  assert (N : str "12" <> []) by discriminate.
  assert (D : Forall (fun x => isdigit x = true) (str "12"))
    by (repeat constructor).
  assert (H : str "Intro to AI" <> []) by discriminate.
  assert (Hn : ~ In newline (str "Intro to AI"))
    by (vm_compute; intuition discriminate).
  repeat (split; [assumption || reflexivity|]).
  exact (process_slide_title_well_formed (str "") (str "12") (str " ")
           (str "Intro to AI") (str "  ") (lines ["* a"; ""; "*  b "]%string)
           B0 B1 B2 N D H Hn eq_refl eq_refl).
Defined.

(** X9. [process_slide_title] returns a triple only for a fragment that
    splits, at its first newline, into a header that reads (once stripped)
    "Slide ", a non-empty run of digits, ": " and a non-empty heading; the
    number returned is that run of digits and the title is the heading
    stripped. *)
Theorem process_slide_title_only_well_formed
    (slide slide_number title points_string : pystr) :
  process_slide_title slide = Some (slide_number, title, points_string) ->
  exists part0 part1 heading,
    slide = part0 ++ newline :: part1
    /\ ~ In newline part0
    /\ strip part0 = str "Slide " ++ slide_number ++ str ": " ++ heading
    /\ slide_number <> []
    /\ Forall (fun c => isdigit c = true) slide_number
    /\ upto_newline heading <> []
    /\ title = strip (upto_newline heading)
    /\ points_string = points_string_of part1.
Proof.
  unfold process_slide_title; intros H.
  destruct (split_first_line slide) as [l|[part0 part1]] eqn:Es;
    [discriminate|].
  destruct (header_match (strip part0)) as [[no g2]|] eqn:Eh; [|discriminate].
  injection H as <- <- <-.
  destruct (FactsB.split_first_line_inr _ _ _ Es) as [E Hn].
  destruct (FactsB.header_match_inv _ _ _ Eh) as [rest [Hh [Hne [Hd [Hg Hg']]]]].
  exists part0, part1, rest; subst g2; repeat split; assumption.
Qed.

Lemma process_slide_title_only_well_formed_witness :
  let slide := lines ["Slide 3: Uses  "; "* x"; "* y"]%string in
  process_slide_title slide = Some (str "3", str "Uses", str "x, y")
  /\ exists part0 part1 heading,
       slide = part0 ++ newline :: part1
       /\ ~ In newline part0
       /\ strip part0 = str "Slide " ++ str "3" ++ str ": " ++ heading
       /\ str "3" <> []
       /\ Forall (fun c => isdigit c = true) (str "3")
       /\ upto_newline heading <> []
       /\ str "Uses" = strip (upto_newline heading)
       /\ str "x, y" = points_string_of part1.
Proof.
  cbv zeta; split; [reflexivity|].
  apply (process_slide_title_only_well_formed
           (lines ["Slide 3: Uses  "; "* x"; "* y"]%string)
           (str "3") (str "Uses") (str "x, y")).
  reflexivity.
Defined.

(* ================================================================== *)
(** ** The topics typed in the form *)
(* ================================================================== *)

Lemma split_lines_forall (P : ascii -> Prop) (s : pystr) :
  Forall P s -> Forall (Forall P) (split_lines s).
Proof.
  induction 1 as [|c r Hc _ IH]; [repeat constructor|].
  cbn [split_lines]; destruct (Ascii.eqb c newline).
  - constructor; [constructor | exact IH].
  - destruct (split_lines r) as [|l ls]; [repeat constructor; exact Hc|].
    inversion IH; subst; constructor; [constructor|]; assumption.
Qed.

Lemma split_lines_no_newline (s : pystr) :
  Forall (fun l => ~ In newline l) (split_lines s).
Proof.
  induction s as [|c r IH]; [constructor; [intros [] | constructor]|].
  cbn [split_lines]; destruct (Ascii.eqb_spec c newline) as [E|E].
  - constructor; [intros [] | exact IH].
  - destruct (split_lines r) as [|l ls].
    + constructor; [|constructor].
      intros [H|[]]; apply E; exact H.
    + inversion IH as [|? ? Hl Hls]; subst; constructor; [|exact Hls].
      intros [H|H]; [apply E; exact H | exact (Hl H)].
Qed.

Lemma split_lines_cover (s : pystr) (c : ascii) :
  In c s -> c <> newline -> exists l, In l (split_lines s) /\ In c l.
Proof.
  intros Hin Hc; induction s as [|x r IH]; [destruct Hin|].
  cbn [split_lines]; destruct (Ascii.eqb_spec x newline) as [E|E].
  - destruct Hin as [->|Hin]; [contradiction|].
    destruct (IH Hin) as [l [Hl Hcl]]; exists l; split; [right|]; assumption.
  - destruct Hin as [->|Hin].
    + destruct (split_lines r) as [|l ls]; eexists; (split; [left; reflexivity|]);
        left; reflexivity.
    + destruct (IH Hin) as [l [Hl Hcl]].
      destruct (split_lines r) as [|l0 ls]; [destruct Hl|].
      destruct Hl as [->|Hl].
      * exists (x :: l); split; [left; reflexivity | right; exact Hcl].
      * exists l; split; [right; exact Hl | exact Hcl].
Qed.

Lemma nonempty_false (s : pystr) : nonempty s = false <-> s = [].
Proof. destruct s; split; intros H; try reflexivity; discriminate. Qed.

(** The list of topics is empty exactly when the text typed is blank. *)
Lemma parse_topics_nil (topics_input : pystr) :
  parse_topics topics_input = [] <-> all_space topics_input.
Proof.
  unfold parse_topics; split.
  - intros H; apply map_eq_nil in H.
    apply Forall_forall; intros c Hc.
    destruct (Ascii.eqb_spec c newline) as [->|Hn]; [reflexivity|].
    destruct (split_lines_cover _ _ Hc Hn) as [l [Hl Hcl]].
    assert (Hs : nonempty (strip l) = false).
    { destruct (nonempty (strip l)) eqn:E; [|reflexivity].
      assert (Hf : In l (filter (fun topic => nonempty (strip topic))
                                (split_lines topics_input)))
        by (apply filter_In; split; assumption).
      rewrite H in Hf; destruct Hf. }
    apply nonempty_false in Hs.
    pose proof (strip_by_nil_all isspace l Hs) as Hall.
    rewrite Forall_forall in Hall; exact (Hall _ Hcl).
  - intros H.
    pose proof (split_lines_forall _ _ H) as Hl.
    induction Hl as [|l ls Hl0 _ IH]; [reflexivity|].
    assert (Hs : strip l = []) by (apply strip_by_all; exact Hl0).
    cbn [filter]; rewrite Hs; exact IH.
Qed.

(** X10. Every topic read from the form is non-empty, has no whitespace at
    either end and holds no newline. *)
Theorem parse_topics_clean (topics_input : pystr) :
  Forall (fun topic => topic <> [] /\ strip topic = topic /\ ~ In newline topic)
         (parse_topics topics_input).
Proof.
  unfold parse_topics; apply Forall_map, Forall_forall.
  intros l Hl; apply filter_In in Hl; destruct Hl as [Hin Hne].
  repeat split.
  - intros E; rewrite E in Hne; discriminate.
  - apply strip_idem.
  - intros Hn.
    pose proof (split_lines_no_newline topics_input) as Hall.
    rewrite Forall_forall in Hall; apply (Hall _ Hin).
    destruct (strip_split l) as [lead [trail [E _]]]; rewrite E.
    apply in_or_app; right; apply in_or_app; left; exact Hn.
Qed.

(** X11. When the text typed for the topics is blank (empty, or only
    whitespace and newlines), both scripts show "Please enter at least one
    topic." and do nothing else: no request, no file, no deck; and only
    then is the list of topics empty. *)
Theorem blank_topics_rejected (rt : Runtime) (title topics_input : pystr)
    (w : World) :
  all_space topics_input ->
  VariantA.on_submit rt title topics_input w
  = (Ok tt,
     mkWorld (requests w)
       (screen w ++ [st_error (str "Please enter at least one topic.")])
       (files w))
  /\ VariantB.on_submit rt title topics_input w
     = (Ok tt,
        mkWorld (requests w)
          (screen w ++ [st_error (str "Please enter at least one topic.")])
          (files w))
  /\ (forall other, parse_topics other = [] -> all_space other).
Proof.
  intros H; apply parse_topics_nil in H.
  unfold VariantA.on_submit, VariantB.on_submit; rewrite H.
  repeat split.
  intros other Ho; apply parse_topics_nil; exact Ho.
Qed.

Lemma blank_topics_rejected_witness :
  let topics_input := lines ["  "; ""; " "]%string in
  all_space topics_input
  /\ VariantA.on_submit rt_no_key (str "Gen AI") topics_input empty_world
     = (Ok tt,
        mkWorld (requests empty_world)
          (screen empty_world ++ [st_error (str "Please enter at least one topic.")])
          (files empty_world))
  /\ VariantB.on_submit rt_no_key (str "Gen AI") topics_input empty_world
     = (Ok tt,
        mkWorld (requests empty_world)
          (screen empty_world ++ [st_error (str "Please enter at least one topic.")])
          (files empty_world))
  /\ (forall other, parse_topics other = [] -> all_space other).
Proof.
  cbv zeta.
  assert (H : all_space (lines ["  "; ""; " "]%string)) by (repeat constructor).
  split; [exact H|].
  exact (blank_topics_rejected rt_no_key (str "Gen AI")
           (lines ["  "; ""; " "]%string) empty_world H).
Defined.

(* ================================================================== *)
(** ** App1.py: building the deck *)
(* ================================================================== *)

Lemma add_slides_map (slides : list pystr) :
  forall parsed prs,
    map process_slide_title slides = map Some parsed ->
    VariantB.add_slides slides prs
    = inr (prs ++ map VariantB.slide_of_parsed parsed).
Proof.
  induction slides as [|s rest IH]; intros parsed prs H.
  - destruct parsed; [|discriminate H].
    cbn; rewrite app_nil_r; reflexivity.
  - destruct parsed as [|[[no title] content] parsed]; [discriminate H|].
    cbn [map] in H; injection H as Hs Hrest.
    cbn [VariantB.add_slides]; rewrite Hs.
    rewrite (IH parsed _ Hrest), <- app_assoc; reflexivity.
Qed.

Lemma add_slides_raises (slides : list pystr) :
  forall prs e,
    VariantB.add_slides slides prs = inl e ->
    e = TypeError
    /\ exists slide, In slide slides /\ process_slide_title slide = None.
Proof.
  induction slides as [|s rest IH]; intros prs e H; [discriminate H|].
  cbn [VariantB.add_slides] in H.
  destruct (process_slide_title s) as [[[no title] content]|] eqn:E.
  - destruct (IH _ _ H) as [He [slide [Hin Hn]]].
    split; [exact He|]; exists slide; split; [right|]; assumption.
  - injection H as <-; split; [reflexivity|].
    exists s; split; [left; reflexivity | exact E].
Qed.

(** X12. When every fragment parses, [generate_ppt] returns a deck with
    one content slide for each fragment, in the order of the fragments: the
    slide's title is the number, a dot and the heading, its body the joined
    points; the world is left as it was. *)
Theorem generate_ppt_parsed (slides : list pystr)
    (parsed : list (pystr * pystr * pystr)) (w : World) :
  map process_slide_title slides = map Some parsed ->
  VariantB.generate_ppt slides w
  = (Ok (map VariantB.slide_of_parsed parsed), w)
  /\ length (map VariantB.slide_of_parsed parsed) = length slides
  /\ map title_text (map VariantB.slide_of_parsed parsed)
     = map (fun '(no, title, _) => no ++ str "." ++ title) parsed
  /\ map body_text (map VariantB.slide_of_parsed parsed)
     = map (fun '(_, _, content) => content) parsed
  /\ Forall (fun s => is_content_slide s = true)
            (map VariantB.slide_of_parsed parsed).
Proof.
  intros H; unfold VariantB.generate_ppt.
  rewrite (add_slides_map slides parsed [] H).
  split; [reflexivity|]; split.
  - rewrite length_map, <- (length_map Some parsed), <- H, length_map.
    reflexivity.
  - rewrite !map_map; repeat split.
    + apply map_ext; intros [[no title] content]; reflexivity.
    + apply map_ext; intros [[no title] content]; reflexivity.
    + apply Forall_map, Forall_forall; intros [[no title] content] _.
      reflexivity.
Qed.

Lemma generate_ppt_parsed_witness :
  let slides := remove_double_asteris (split_into_slides bold_blob) in
  let parsed := [(str "1", str "Intro", str "a, b");
                 (str "2", str "More", str "c, d, The e")] in
  map process_slide_title slides = map Some parsed
  /\ VariantB.generate_ppt slides empty_world
     = (Ok (map VariantB.slide_of_parsed parsed), empty_world)
  /\ length (map VariantB.slide_of_parsed parsed) = length slides
  /\ map title_text (map VariantB.slide_of_parsed parsed)
     = map (fun '(no, title, _) => no ++ str "." ++ title) parsed
  /\ map body_text (map VariantB.slide_of_parsed parsed)
     = map (fun '(_, _, content) => content) parsed
  /\ Forall (fun s => is_content_slide s = true)
            (map VariantB.slide_of_parsed parsed).
Proof.
  cbv zeta.
  assert (H : map process_slide_title
                (remove_double_asteris (split_into_slides bold_blob))
              = map Some [(str "1", str "Intro", str "a, b");
                          (str "2", str "More", str "c, d, The e")])
    by (vm_compute; reflexivity).
  split; [exact H|].
  exact (generate_ppt_parsed _ _ empty_world H).
Defined.

(** X13. [generate_ppt] raises exactly when some fragment does not parse,
    and then it raises [TypeError]; it never changes the world and never
    runs for ever. *)
Theorem generate_ppt_raises_iff (slides : list pystr) (w : World) :
  (VariantB.generate_ppt slides w = (Raised TypeError, w)
   <-> exists slide, In slide slides /\ process_slide_title slide = None)
  /\ (forall out w',
        VariantB.generate_ppt slides w = (out, w') ->
        w' = w /\ out <> Diverged /\ out <> Raised IndexError
        /\ out <> Raised FileNotFoundError).
Proof.
  unfold VariantB.generate_ppt; split; [split|].
  - destruct (VariantB.add_slides slides []) as [e|prs] eqn:E; [|discriminate].
    intros _; exact (proj2 (add_slides_raises _ _ _ E)).
  - intros H; rewrite (FactsB.add_slides_unparsed slides [] H); reflexivity.
  - intros out w' H.
    destruct (VariantB.add_slides slides []) as [e|prs] eqn:E.
    + destruct (add_slides_raises _ _ _ E) as [-> _].
      injection H as <- <-; repeat split; discriminate.
    + injection H as <- <-; repeat split; discriminate.
Qed.

(* ================================================================== *)
(** ** App1.py: the submit handler *)
(* ================================================================== *)

Lemma show_slides_run (slides : list pystr) :
  forall i w,
    VariantB.show_slides i slides w
    = (Ok tt,
       mkWorld (requests w) (screen w ++ VariantB.slide_events i slides)
               (files w)).
Proof.
  induction slides as [|s rest IH]; intros i w.
  - destruct w; cbn; rewrite app_nil_r; reflexivity.
  - cbn [VariantB.show_slides VariantB.slide_events].
    unfold bind at 1; unfold emit at 1.
    unfold bind at 1; unfold emit at 1.
    rewrite IH; cbn [requests screen files].
    rewrite <- !app_assoc; reflexivity.
Qed.

Lemma slide_events_no_download (slides : list pystr) :
  forall i, existsb is_download_button (VariantB.slide_events i slides) = false.
Proof. induction slides as [|s rest IH]; intros i; [reflexivity | apply IH]. Qed.

(** The handler of App1.py once [create_presentation] has run. *)
Lemma on_submit_B_after (rt : Runtime) (title topics_input : pystr)
    (t : pystr) (ts : list pystr) (w : World) :
  parse_topics topics_input = t :: ts ->
  VariantB.on_submit rt title topics_input w
  = bind (VariantB.create_presentation rt title (t :: ts))
      (fun slides =>
         match slides with
         | VariantB.ErrorString s =>
             if startswith (str "Error") s then emit (st_error s)
             else VariantB.deliver title (VariantB.iterate slides)
         | VariantB.SlideTexts _ =>
             VariantB.deliver title (VariantB.iterate slides)
         end)
      (mkWorld (requests w)
         (screen w ++ [st_info (str "Generating your presentation. Please wait...")])
         (files w)).
Proof. intros H; unfold VariantB.on_submit; rewrite H; reflexivity. Qed.

Lemma on_submit_B_error (rt : Runtime) (title topics_input content : pystr)
    (t : pystr) (ts : list pystr) (w w1 : World) :
  parse_topics topics_input = t :: ts ->
  VariantB.generate_content rt title (t :: ts)
    (mkWorld (requests w)
       (screen w ++ [st_info (str "Generating your presentation. Please wait...")])
       (files w))
  = (Ok content, w1) ->
  startswith (str "Error") content = true ->
  VariantB.on_submit rt title topics_input w
  = (Ok tt, mkWorld (requests w1) (screen w1 ++ [st_error content]) (files w1)).
Proof.
  intros Ht Hg He; rewrite (on_submit_B_after rt title topics_input t ts w Ht).
  unfold bind at 1; unfold VariantB.create_presentation.
  unfold bind at 1; rewrite Hg, He.
  unfold ret at 1; cbn iota; rewrite He; reflexivity.
Qed.

(** X14. In App1.py every failed generation ends the same way: when the
    credential is missing, when the call to the model raises, and also when
    the model's own answer starts with "Error", the handler returns after
    showing a message that starts with "Error"; no file is written and no
    download is offered. *)
Theorem failed_generation_shows_error (rt : Runtime)
    (title topics_input : pystr) (w : World) :
  parse_topics topics_input <> [] ->
  key_missing rt = true
  \/ (key_missing rt = false
      /\ exists e,
           model_generate rt (length (requests w))
             (VariantB.prompt title (parse_topics topics_input)) = inr e)
  \/ (key_missing rt = false
      /\ exists text,
           model_generate rt (length (requests w))
             (VariantB.prompt title (parse_topics topics_input)) = inl text
           /\ startswith (str "Error") text = true) ->
  exists events msg,
    VariantB.on_submit rt title topics_input w
    = (Ok tt,
       mkWorld (if key_missing rt then requests w
                else requests w
                       ++ [VariantB.prompt title (parse_topics topics_input)])
         (screen w ++ events ++ [st_error msg]) (files w))
    /\ startswith (str "Error") msg = true
    /\ existsb is_download_button (events ++ [st_error msg]) = false.
Proof.
  intros Ht Hc.
  destruct (parse_topics topics_input) as [|t ts] eqn:Et; [contradiction|].
  set (info := st_info (str "Generating your presentation. Please wait...")).
  set (w0 := mkWorld (requests w) (screen w ++ [info]) (files w)).
  destruct Hc as [Hk | [[Hk [e He]] | [Hk [text [Hm Hs]]]]]; rewrite Hk.
  - exists [info; st_error (str "Gemini API key not found. Please set it in the .env file.")],
      (str "Error: Missing API key.").
    split; [|split; reflexivity].
    rewrite (on_submit_B_error rt title topics_input
               (str "Error: Missing API key.") t ts w
               (mkWorld (requests w0)
                  (screen w0 ++ [st_error (str "Gemini API key not found. Please set it in the .env file.")])
                  (files w0)) Et).
    + cbn [requests screen files w0]; rewrite <- !app_assoc; reflexivity.
    + unfold VariantB.generate_content; rewrite Hk; reflexivity.
    + reflexivity.
  - exists [info; st_error (str "Error: " ++ e)], (str "Error generating content.").
    split; [|split; reflexivity].
    rewrite (on_submit_B_error rt title topics_input
               (str "Error generating content.") t ts w
               (mkWorld (requests w0 ++ [VariantB.prompt title (t :: ts)])
                  (screen w0 ++ [st_error (str "Error: " ++ e)])
                  (files w0)) Et).
    + cbn [requests screen files w0]; rewrite <- !app_assoc; reflexivity.
    + unfold VariantB.generate_content; rewrite Hk.
      unfold bind at 1; unfold ask_model; cbn [requests screen files w0].
      rewrite He; reflexivity.
    + reflexivity.
  - exists [info], text.
    split; [|split; [exact Hs | reflexivity]].
    rewrite (on_submit_B_error rt title topics_input text t ts w
               (mkWorld (requests w0 ++ [VariantB.prompt title (t :: ts)])
                  (screen w0) (files w0)) Et).
    + cbn [requests screen files w0]; rewrite <- !app_assoc; reflexivity.
    + unfold VariantB.generate_content; rewrite Hk.
      unfold bind at 1; unfold ask_model; cbn [requests screen files w0].
      rewrite Hm; reflexivity.
    + exact Hs.
Qed.

Lemma failed_generation_shows_error_witness :
  let rt := rt_raises (str "quota exceeded") in
  let title := str "Gen AI" in
  let topics_input := str "A" in
  let w := empty_world in
  parse_topics topics_input <> []
  /\ (key_missing rt = true
      \/ (key_missing rt = false
          /\ exists e,
               model_generate rt (length (requests w))
                 (VariantB.prompt title (parse_topics topics_input)) = inr e)
      \/ (key_missing rt = false
          /\ exists text,
               model_generate rt (length (requests w))
                 (VariantB.prompt title (parse_topics topics_input)) = inl text
               /\ startswith (str "Error") text = true))
  /\ exists events msg,
       VariantB.on_submit rt title topics_input w
       = (Ok tt,
          mkWorld (if key_missing rt then requests w
                   else requests w
                          ++ [VariantB.prompt title (parse_topics topics_input)])
            (screen w ++ events ++ [st_error msg]) (files w))
       /\ startswith (str "Error") msg = true
       /\ existsb is_download_button (events ++ [st_error msg]) = false.
Proof.
  cbv zeta.
  assert (Ht : parse_topics (str "A") <> []) by (vm_compute; discriminate).
  assert (Hc : key_missing (rt_raises (str "quota exceeded")) = true
               \/ (key_missing (rt_raises (str "quota exceeded")) = false
                   /\ exists e,
                        model_generate (rt_raises (str "quota exceeded"))
                          (length (requests empty_world))
                          (VariantB.prompt (str "Gen AI") (parse_topics (str "A")))
                        = inr e)
               \/ (key_missing (rt_raises (str "quota exceeded")) = false
                   /\ exists text,
                        model_generate (rt_raises (str "quota exceeded"))
                          (length (requests empty_world))
                          (VariantB.prompt (str "Gen AI") (parse_topics (str "A")))
                        = inl text
                        /\ startswith (str "Error") text = true)).
  { right; left; split; [reflexivity|].
    exists (str "quota exceeded"); reflexivity. }
  split; [exact Ht|]; split; [exact Hc|].
  exact (failed_generation_shows_error (rt_raises (str "quota exceeded"))
           (str "Gen AI") (str "A") empty_world Ht Hc).
Defined.

(** X15. In App1.py, when the credential is there, the model answers a text
    that does not start with "Error" and every cleaned fragment of it
    parses, the handler sends one request, shows the raw text, the success
    message and every fragment, and offers a deck with one content slide for
    each marker of the text, in order; no file is written. *)
Theorem parsed_answer_delivered (rt : Runtime)
    (title topics_input text : pystr)
    (parsed : list (pystr * pystr * pystr)) (w : World) :
  parse_topics topics_input <> [] ->
  key_missing rt = false ->
  model_generate rt (length (requests w))
    (VariantB.prompt title (parse_topics topics_input)) = inl text ->
  startswith (str "Error") text = false ->
  map process_slide_title (remove_double_asteris (split_into_slides text))
  = map Some parsed ->
  VariantB.on_submit rt title topics_input w
  = (Ok tt,
     mkWorld
       (requests w ++ [VariantB.prompt title (parse_topics topics_input)])
       (screen w
          ++ [st_info (str "Generating your presentation. Please wait...");
              st_text_area (str "raw content") text;
              st_success (str "Presentation content generated successfully!")]
          ++ VariantB.slide_events 1
               (remove_double_asteris (split_into_slides text))
          ++ [st_download_button (str "Download PowerPoint Presentation")
                (map VariantB.slide_of_parsed parsed)
                (VariantB.download_name title) pptx_mime])
       (files w))
  /\ length (map VariantB.slide_of_parsed parsed)
     = length (marker_positions text).
Proof.
  intros Ht Hk Hm He Hp; split.
  - destruct (parse_topics topics_input) as [|t ts] eqn:Et; [contradiction|].
    rewrite (on_submit_B_after rt title topics_input t ts w Et).
    unfold bind at 1; unfold VariantB.create_presentation.
    unfold bind at 1; unfold VariantB.generate_content; rewrite Hk.
    unfold bind at 1; unfold ask_model; cbn [requests screen files].
    rewrite Hm; unfold ret at 1; rewrite He.
    unfold bind at 1; unfold emit at 1; unfold ret at 1.
    cbn [requests screen files VariantB.iterate].
    unfold VariantB.deliver.
    unfold bind at 1; unfold emit at 1.
    unfold bind at 1; unfold VariantB.generate_ppt.
    rewrite (add_slides_map _ parsed [] Hp); unfold ret at 1.
    unfold bind at 1; rewrite show_slides_run.
    unfold emit; cbn [requests screen files app].
    rewrite <- !app_assoc; reflexivity.
  - rewrite length_map, <- (length_map Some parsed), <- Hp, length_map.
    unfold remove_double_asteris, split_into_slides.
    rewrite !length_map, findall_spans; apply spans_between_length.
Qed.

Lemma parsed_answer_delivered_witness :
  let rt := rt_answer bold_blob in
  let title := str "Gen AI" in
  let topics_input := lines ["A"; "B"]%string in
  let text := bold_blob in
  let parsed := [(str "1", str "Intro", str "a, b");
                 (str "2", str "More", str "c, d, The e")] in
  let w := empty_world in
  parse_topics topics_input <> []
  /\ key_missing rt = false
  /\ model_generate rt (length (requests w))
       (VariantB.prompt title (parse_topics topics_input)) = inl text
  /\ startswith (str "Error") text = false
  /\ map process_slide_title (remove_double_asteris (split_into_slides text))
     = map Some parsed
  /\ VariantB.on_submit rt title topics_input w
     = (Ok tt,
        mkWorld
          (requests w ++ [VariantB.prompt title (parse_topics topics_input)])
          (screen w
             ++ [st_info (str "Generating your presentation. Please wait...");
                 st_text_area (str "raw content") text;
                 st_success (str "Presentation content generated successfully!")]
             ++ VariantB.slide_events 1
                  (remove_double_asteris (split_into_slides text))
             ++ [st_download_button (str "Download PowerPoint Presentation")
                   (map VariantB.slide_of_parsed parsed)
                   (VariantB.download_name title) pptx_mime])
          (files w))
  /\ length (map VariantB.slide_of_parsed parsed)
     = length (marker_positions text).
Proof.
  cbv zeta.
  assert (Ht : parse_topics (lines ["A"; "B"]%string) <> [])
    by (vm_compute; discriminate).
  assert (Hp : map process_slide_title
                 (remove_double_asteris (split_into_slides bold_blob))
               = map Some [(str "1", str "Intro", str "a, b");
                           (str "2", str "More", str "c, d, The e")])
    by (vm_compute; reflexivity).
  split; [exact Ht|].
  split; [reflexivity|].
  split; [reflexivity|].
  split; [reflexivity|].
  split; [exact Hp|].
  exact (parsed_answer_delivered (rt_answer bold_blob) (str "Gen AI")
           (lines ["A"; "B"]%string) bold_blob _ empty_world
           Ht eq_refl eq_refl eq_refl Hp).
Defined.

(* ================================================================== *)
(** ** App.py: the submit handler *)
(* ================================================================== *)





(** X18. With a limit of zero the loop of [split_content] ends only on a
    text that is blank: on any other text every turn cuts an empty chunk
    and leaves the stripped text as it was, so no run ever ends. *)
Theorem split_content_zero_limit (content : pystr) :
  strip content <> [] ->
  split_content content 0 = None
  /\ (forall chunks, ~ splits 0 content chunks)
  /\ split_step (strip content) 0 = ([], strip content).
Proof.
  intros Hs.
  assert (Hno : forall chunks, ~ splits 0 content chunks).
  { intros chunks H.
    inversion H as [c Hle | c chunk rest cs Hlt Hst Hr]; subst.
    - destruct content; [apply Hs; reflexivity | simpl in Hle; lia].
    - unfold split_step, split_index, rfind in Hst; simpl in Hst.
      injection Hst as _ <-.
      exact (Hs (splits_zero_stuck _ _ Hr (strip_idem content))). }
  split; [|split; [exact Hno|]].
  - destruct (split_content content 0) as [chunks|] eqn:E; [|reflexivity].
    exfalso; apply split_content_splits in E; exact (Hno _ E).
  - unfold split_step, split_index, rfind; cbn [firstn rfind_char skipn].
    rewrite strip_idem; reflexivity.
Qed.

Lemma split_content_zero_limit_witness :
  strip (str " ab ") <> []
  /\ split_content (str " ab ") 0 = None
  /\ (forall chunks, ~ splits 0 (str " ab ") chunks)
  /\ split_step (strip (str " ab ")) 0 = ([], strip (str " ab ")).
Proof.
  assert (H : strip (str " ab ") <> []) by (vm_compute; discriminate).
  split; [exact H | exact (split_content_zero_limit (str " ab ") H)].
Defined.
